(** * cert_checker.py: SSL/TLS certificate expiry checker

    A shallow embedding of [CertificateChecker] and [main] from
    [TASKS/TASK1/cert-checker/cert_checker.py], and the properties of its
    classification, rendering, alerting and exit-code logic.

    Conventions.
    - Python [int] is [Z]; [str] is [string]; [Optional[T]] is [option T]
      with [None] for Python's [None].
    - The result dictionaries built in [check_all_certificates] always carry
      the same six keys, so they are a record whose fields are the keys.
    - The configuration dictionary is read only through [.get(key, default)]
      and [[key]]; it is a record of optional fields, [None] meaning that the
      key is missing.
    - Code that logs, prints, talks to the network or raises runs in the
      monad [M]: a trace of observable events together with either the
      exception that escaped or the value returned.
    - The operating system and the libraries ([socket], [ssl], [datetime],
      [smtplib], [requests]) are a [platform]: a record of functions giving
      the outcome of each external call. *)

From stdpp Require Import base option list strings pretty gmap.

Open Scope string_scope.
Open Scope list_scope.
Open Scope Z_scope.

(** ** Python values *)

Module Py.

(** The exception classes that the program catches or that its library
    calls raise. All of them derive from [Exception]. [KeyboardInterrupt]
    and [SystemExit] do not, and are no exceptions of the model: they come
    from the user or from [sys.exit], in the main thread, and not from the
    calls that the fetcher and the alert channels make. [sys.exit(n)] is a
    computation that yields [n], and the interrupt of the user is an
    argument of [main_entry]. *)
Inductive exn_class :=
  | Exception
  | OSError
  | socket_timeout
  | socket_gaierror
  | ConnectionError
  | ConnectionRefusedError
  | SSLError
  | SSLCertVerificationError
  | LookupError
  | KeyError
  | ValueError
  | TypeError
  | AttributeError
  | SMTPException
  | SMTPResponseException
  | RequestException
  | HTTPError.

#[global] Instance exn_class_eq_dec : EqDecision exn_class.
Proof. solve_decision. Defined.

(** Method resolution order of each class, up to [Exception]. *)
Definition mro (c : exn_class) : list exn_class :=
  match c with
  | Exception => [Exception]
  | OSError => [OSError; Exception]
  | socket_timeout => [socket_timeout; OSError; Exception]
  | socket_gaierror => [socket_gaierror; OSError; Exception]
  | ConnectionError => [ConnectionError; OSError; Exception]
  | ConnectionRefusedError =>
      [ConnectionRefusedError; ConnectionError; OSError; Exception]
  | SSLError => [SSLError; OSError; Exception]
  | SSLCertVerificationError =>
      [SSLCertVerificationError; SSLError; OSError; ValueError; Exception]
  | LookupError => [LookupError; Exception]
  | KeyError => [KeyError; LookupError; Exception]
  | ValueError => [ValueError; Exception]
  | TypeError => [TypeError; Exception]
  | AttributeError => [AttributeError; Exception]
  | SMTPException => [SMTPException; OSError; Exception]
  | SMTPResponseException =>
      [SMTPResponseException; SMTPException; OSError; Exception]
  | RequestException => [RequestException; OSError; Exception]
  | HTTPError => [HTTPError; RequestException; OSError; Exception]
  end.

Definition issubclass (c d : exn_class) : bool := bool_decide (d ∈ mro c).

(** A raised exception: its class and [str(e)]. *)
Record exn := Exn { exn_cls : exn_class; exn_str : string }.

(** Truth value of an [Optional[str]]: [None] and [''] are false. *)
Definition truthy (o : option string) : bool :=
  match o with
  | Some s => negb (bool_decide (s = ""))
  | None => false
  end.

(** [str(n)] for an [int]. *)
Definition str (n : Z) : string := pretty n.

(** [f'{v}'] for an [Optional[int]] and an [Optional[str]]. *)
Definition fmt_int (o : option Z) : string :=
  match o with Some n => str n | None => "None" end.

Definition fmt_str (o : option string) : string :=
  match o with Some s => s | None => "None" end.

(** The double quote, line feed and [sep.join(l)]. *)
Definition dq : string := String (Ascii.ascii_of_nat 34) EmptyString.
Definition nl : string := String (Ascii.ascii_of_nat 10) EmptyString.

Fixpoint join (sep : string) (l : list string) : string :=
  match l with
  | [] => ""
  | [s] => s
  | s :: rest => s +:+ sep +:+ join sep rest
  end.

End Py.
Import Py.

(** ** datetime and timedelta *)

Module Datetime.

(** A naive [datetime]: proleptic Gregorian ordinal of the day, second of
    the day and microsecond of the second, the three quantities that
    [datetime.__sub__] works on. *)
Record datetime := { ordinal : Z; second : Z; microsecond : Z }.

(** A [timedelta] in its normal form. *)
Record timedelta := { days : Z; seconds : Z; microseconds : Z }.

(** [timedelta(days, seconds, microseconds)]: the constructor carries
    microseconds into seconds and seconds into days with [divmod], which
    rounds toward minus infinity. *)
Definition timedelta_new (d s us : Z) : timedelta :=
  let s := s + us `div` 1000000 in
  {| days := d + s `div` 86400;
     seconds := s `mod` 86400;
     microseconds := us `mod` 1000000 |}.

(** [a - b] on two naive datetimes. *)
Definition sub (a b : datetime) : timedelta :=
  timedelta_new (ordinal a - ordinal b) (second a - second b)
                (microsecond a - microsecond b).

(** Microseconds from the start of day zero. *)
Definition to_us (a : datetime) : Z :=
  (ordinal a * 86400 + second a) * 1000000 + microsecond a.

Definition us_per_day : Z := 86400 * 1000000.

End Datetime.
Import Datetime.

(** ** Data model *)

(** One entry of [config['websites']]; [site_port] is [None] when the entry
    has no ['port'] key. *)
Record website := { site_hostname : string; site_port : option Z }.

(** [config['thresholds']]. *)
Record thresholds_config := { critical : option Z; warning : option Z }.

(** [config['alerts']['email']]. *)
Record email_config := {
  email_enabled : option bool;
  email_subject : option string;
  email_from : option string;
  email_to : option (list string);
  smtp_server : option string;
  smtp_port : option Z;
  use_tls : option bool;
  username : option string;
  password : option string }.

(** [config['alerts']['webhook']]. *)
Record webhook_config := {
  webhook_enabled : option bool;
  webhook_url : option string;
  webhook_type : option string }.

(** [config['alerts']]. *)
Record alerts_config := {
  alerts_enabled : option bool;
  alerts_email : option email_config;
  alerts_webhook : option webhook_config }.

(** The loaded configuration, [self.config]. *)
Record config := {
  websites : option (list website);
  max_workers : option Z;
  thresholds : option thresholds_config;
  alerts : option alerts_config }.

(** One element of [self.results]: the dictionary built at lines 138-145. *)
Record result := {
  hostname : string;
  port : Z;
  expiry_date : option datetime;
  error : option string;
  days_until_expiry : option Z;
  status : string }.

Definition set_days_until_expiry (r : result) (d : Z) : result :=
  {| hostname := hostname r; port := port r; expiry_date := expiry_date r;
     error := error r; days_until_expiry := Some d; status := status r |}.

Definition set_status (r : result) (s : string) : result :=
  {| hostname := hostname r; port := port r; expiry_date := expiry_date r;
     error := error r; days_until_expiry := days_until_expiry r;
     status := s |}.

(** The Slack webhook body: attachments with fields. *)
Module Slack.
Record field := { title : string; value : string; short : bool }.
Record attachment :=
  { color : string; fields : list field; footer : string; ts : Z }.
Record payload := { text : string; attachments : list attachment }.
End Slack.

(** The Teams webhook body: a MessageCard with sections of facts. *)
Module Teams.
Record fact := { name : string; value : string }.
Record section := { activityTitle : string; facts : list fact }.
Record payload := {
  type_ : string;
  context : string;
  summary : string;
  themeColor : string;
  title : string;
  sections : list section }.
End Teams.

Inductive webhook_payload :=
  | SlackPayload (p : Slack.payload)
  | TeamsPayload (p : Teams.payload).

(** The [MIMEMultipart] message with its single HTML part. *)
Record mime_message := {
  msg_Subject : string;
  msg_From : string;
  msg_To : string;
  msg_html : string }.

(** ** Effects *)

(** What a run does that can be observed from outside. *)
Inductive event :=
  | LogInfo (msg : string)
  | LogError (msg : string)
  | Print (line : string)
  | SmtpConnect (server : string) (port : Z)
  | SmtpStartTls
  | SmtpLogin (user pass : string)
  | SmtpSendMessage (msg : mime_message)
  | SmtpQuit
  | HttpPost (url : string) (json : webhook_payload) (timeout : Z).

(** A computation: the events so far, and the exception that escaped
    ([inl]) or the value returned ([inr]). *)
Definition M (A : Type) : Type := list event * (exn + A).

Definition trace {A} (m : M A) : list event := m.1.
Definition outcome {A} (m : M A) : exn + A := m.2.

#[global] Instance M_ret : MRet M := λ A a, ([], inr a).

#[global] Instance M_bind : MBind M := λ A B k m,
  match m with
  | (tr, inl e) => (tr, inl e)
  | (tr, inr a) => let '(tr', r) := k a in (tr ++ tr', r)
  end.

Definition raise {A} (e : exn) : M A := ([], inl e).
Definition emit (ev : event) : M unit := ([ev], inr tt).

(** The outcome of an external call that may raise. *)
Definition lift {A} (r : exn + A) : M A := ([], r).

(** The outcome of an external call that returns nothing. *)
Definition lift_unit (r : option exn) : M unit :=
  match r with Some e => raise e | None => mret tt end.

(** [d[key]] on a dictionary field: [KeyError] when the key is missing. *)
Definition getitem {A} (key : string) (o : option A) : M A :=
  match o with
  | Some a => mret a
  | None => raise (Exn KeyError ("'" +:+ key +:+ "'"))
  end.

Definition when (b : bool) (m : M unit) : M unit := if b then m else mret tt.

(** What other threads did meanwhile. *)
Definition emit_all (evs : list event) : M unit := (evs, inr tt).

(** [with manager: body]: leaving the block, normally or through an
    exception, runs the exit of the context manager; when the exit raises,
    its exception replaces the outcome of the body. *)
Definition with_block {A} (body : M A) (exit : M unit) : M A :=
  let '(tr, r) := body in
  let '(tr', r') := exit in
  (tr ++ tr', match r' with inl e => inl e | inr _ => r end).

(** The log of threads that run side by side: each thread writes its lines
    in its own order, and [schedule] says whose turn it is. A turn of a
    thread that has nothing left to write, or that does not exist, passes;
    when the turns are used up, the threads that are left write one after
    the other. *)
Fixpoint interleave (schedule : list nat) (logs : list (list event))
  : list event :=
  match schedule with
  | [] => concat logs
  | i :: rest =>
      match logs !! i with
      | Some (ev :: evs) => ev :: interleave rest (<[i := evs]> logs)
      | _ => interleave rest logs
      end
  end.

(** [try: body / except C1 as e: h1 / except C2 as e: h2 ...]: the first
    clause whose class the exception is an instance of handles it; with no
    such clause the exception goes on. *)
Fixpoint find_handler {A} (e : exn) (handlers : list (exn_class * (exn → M A)))
  : option (exn → M A) :=
  match handlers with
  | [] => None
  | (c, h) :: rest =>
      if issubclass (exn_cls e) c then Some h else find_handler e rest
  end.

Definition try_except {A} (body : M A)
    (handlers : list (exn_class * (exn → M A))) : M A :=
  match body with
  | (tr, inr a) => (tr, inr a)
  | (tr, inl e) =>
      match find_handler e handlers with
      | Some h => let '(tr', r) := h e in (tr ++ tr', r)
      | None => (tr, inl e)
      end
  end.

(** ** The platform *)

Definition sock := nat.

Record platform := {
  (** [socket.create_connection((host, port), timeout=timeout)] *)
  create_connection : string → Z → Z → exn + sock;
  (** [context.wrap_socket(sock, server_hostname=hostname)] *)
  wrap_socket : sock → string → exn + sock;
  (** [secure_sock.getpeercert()], restricted to its string-valued keys *)
  getpeercert : sock → exn + option (gmap string string);
  (** [datetime.strptime(s, format)] *)
  strptime : string → string → exn + datetime;
  (** [d.strftime(format)] *)
  strftime : datetime → string → string;
  (** [smtplib.SMTP(server, port)], [starttls()], [login(u, p)],
      [send_message(msg)]: [Some e] when the call raises [e] *)
  smtp_connect : string → Z → option exn;
  smtp_starttls : option exn;
  smtp_login : string → string → option exn;
  smtp_send_message : mime_message → option exn;
  (** leaving [with smtplib.SMTP(...) as server]: the session sends QUIT,
      and raises when the reply is not 221 *)
  smtp_quit : option exn;
  (** [requests.post(url, json=payload, timeout=t)]: the status code of the
      response, or the exception raised *)
  requests_post : string → webhook_payload → Z → exn + Z;
  (** [response.raise_for_status()] on a response with that status code *)
  raise_for_status : Z → option exn;
  (** the turns of the worker threads of the pool: the index, in the order
      of submission, of the future whose thread writes its next log line *)
  thread_schedule : list nat }.

(** ** More of Python *)

(** [{k1: v1, ...}.get(key, default)] on a dictionary literal. *)
Fixpoint dict_get (d : list (string * string)) (key default : string)
  : string :=
  match d with
  | [] => default
  | (k, v) :: rest => if bool_decide (key = k) then v else dict_get rest key default
  end.

(** [d.get(key, default)] on a key that [d] holds: the stored value, [None]
    included. The default is returned for a missing key only, and every
    result dictionary has all of its keys. *)
Definition get_present {A B} (stored : A) (default : B) : A := stored.

(** [s * n]. *)
Fixpoint str_mul (s : string) (n : nat) : string :=
  match n with
  | O => ""
  | S n => s +:+ str_mul s n
  end.

(** [s.capitalize()] on ASCII letters. *)
Definition upper (c : Ascii.ascii) : Ascii.ascii :=
  let n := Ascii.nat_of_ascii c in
  if ((97 <=? n) && (n <=? 122))%nat then Ascii.ascii_of_nat (n - 32) else c.

Definition lower (c : Ascii.ascii) : Ascii.ascii :=
  let n := Ascii.nat_of_ascii c in
  if ((65 <=? n) && (n <=? 90))%nat then Ascii.ascii_of_nat (n + 32) else c.

Fixpoint str_map (f : Ascii.ascii → Ascii.ascii) (s : string) : string :=
  match s with
  | EmptyString => EmptyString
  | String c rest => String (f c) (str_map f rest)
  end.

Definition capitalize (s : string) : string :=
  match s with
  | EmptyString => EmptyString
  | String c rest => String (upper c) (str_map lower rest)
  end.

(** [for x in l: f(x)]. *)
Fixpoint for_each {A} (f : A → M unit) (l : list A) : M unit :=
  match l with
  | [] => mret tt
  | x :: rest => f x;; for_each f rest
  end.

(** The empty dictionary [{}] as a default for a missing section. *)
Definition no_thresholds : thresholds_config :=
  {| critical := None; warning := None |}.

Definition no_email : email_config :=
  {| email_enabled := None; email_subject := None; email_from := None;
     email_to := None; smtp_server := None; smtp_port := None;
     use_tls := None; username := None; password := None |}.

Definition no_webhook : webhook_config :=
  {| webhook_enabled := None; webhook_url := None; webhook_type := None |}.

Definition no_alerts : alerts_config :=
  {| alerts_enabled := None; alerts_email := None; alerts_webhook := None |}.

(** ** class CertificateChecker *)

Section CertificateChecker.

Variable P : platform.
Variable cfg : config.

(** The statements of the [try] block of [get_certificate_expiry], lines
    83-95, up to the parsed expiry date. *)
Definition retrieve_expiry (hostname : string) (port timeout : Z)
  : M datetime :=
  emit (LogInfo ("Checking certificate for " +:+ hostname +:+ ":"
                 +:+ str port));;
  sock ← lift (create_connection P hostname port timeout);
  secure_sock ← lift (wrap_socket P sock hostname);
  cert ← lift (getpeercert P secure_sock);
  expiry_date_str ←
    match cert with
    | Some cert => getitem "notAfter" (cert !! "notAfter")
    | None => raise (Exn TypeError "'NoneType' object is not subscriptable")
    end;
  lift (strptime P expiry_date_str "%b %d %H:%M:%S %Y %Z").

(** [get_certificate_expiry(hostname, port, timeout)], lines 70-114. *)
Definition get_certificate_expiry (hostname : string) (port timeout : Z)
  : M (string * option datetime * option string) :=
  try_except
    (expiry_date ← retrieve_expiry hostname port timeout;
     mret (hostname, Some expiry_date, None))
    [ (socket_timeout, λ _,
        let error_msg := "Connection timeout for " +:+ hostname in
        emit (LogError error_msg);;
        mret (hostname, None, Some error_msg));
      (socket_gaierror, λ _,
        let error_msg := "DNS resolution failed for " +:+ hostname in
        emit (LogError error_msg);;
        mret (hostname, None, Some error_msg));
      (SSLError, λ e,
        let error_msg :=
          "SSL error for " +:+ hostname +:+ ": " +:+ exn_str e in
        emit (LogError error_msg);;
        mret (hostname, None, Some error_msg));
      (Exception, λ e,
        let error_msg :=
          "Unexpected error for " +:+ hostname +:+ ": " +:+ exn_str e in
        emit (LogError error_msg);;
        mret (hostname, None, Some error_msg)) ].

(** The body of the [as_completed] loop, lines 135-160: the result built
    from the site of a future, what the future returned, and the clock
    reading [now] of [datetime.now()]. A [datetime] is always true, so
    [if expiry_date:] tests for [None]. *)
Definition classify (site : website) (now : datetime)
    (fetched : string * option datetime * option string) : result :=
  let '(hostname, expiry_date, error) := fetched in
  let result :=
    {| hostname := hostname;
       port := default 443 (site_port site);
       expiry_date := expiry_date;
       error := error;
       days_until_expiry := None;
       status := if truthy error then "ERROR" else "OK" |} in
  match expiry_date with
  | Some expiry_date =>
      let days_until_expiry := days (sub expiry_date now) in
      let result := set_days_until_expiry result days_until_expiry in
      let thresholds := default no_thresholds (thresholds cfg) in
      if days_until_expiry <=? default 7 (critical thresholds) then
        set_status result "CRITICAL"
      else if days_until_expiry <=? default 30 (warning thresholds) then
        set_status result "WARNING"
      else
        set_status result "OK"
  | None => result
  end.

(** [check_all_certificates], lines 116-162. The pool is made for
    [config.get('max_workers', 5)] workers, and [ThreadPoolExecutor] raises
    [ValueError] when that number is not positive. Every site of
    [config.get('websites', [])] is submitted at once, as a call of
    [get_certificate_expiry] with the default timeout, and the worker
    threads run side by side: what they log is the interleaving of the logs
    of these calls that the platform's schedule gives. The main thread only
    collects. [completed] lists the futures in the order in which
    [as_completed] yields them, each with its site and with the clock
    reading taken while it is processed: the sites of the configuration, in
    the order in which their fetches finish. [future.result()] returns what
    the call returned and raises again what it raised. [results] is
    [self.results]. *)
Definition workers_log (websites : list website) : list (list event) :=
  (λ site, trace (get_certificate_expiry (site_hostname site)
                    (default 443 (site_port site)) 10)) <$> websites.

Fixpoint as_completed (completed : list (website * datetime))
    (results : list result) : M (list result) :=
  match completed with
  | [] => mret results
  | (site, now) :: rest =>
      fetched ← lift (outcome (get_certificate_expiry (site_hostname site)
                                 (default 443 (site_port site)) 10));
      as_completed rest (results ++ [classify site now fetched])
  end.

Definition check_all_certificates (completed : list (website * datetime))
    (results : list result) : M (list result) :=
  let websites := default [] (websites cfg) in
  let max_workers := default 5 (max_workers cfg) in
  if bool_decide (max_workers ≤ 0) then
    raise (Exn ValueError "max_workers must be greater than 0")
  else
    emit_all (interleave (thread_schedule P) (workers_log websites));;
    as_completed completed results.

(** [display_results], lines 164-199; [display_result] is the body of its
    loop. *)
Definition display_result (result : result) : M unit :=
  emit (Print (nl +:+ "Website: " +:+ hostname result +:+ ":"
               +:+ str (port result)));;
  emit (Print ("Status: " +:+ status result));;
  if truthy (error result) then
    emit (Print ("Error: " +:+ fmt_str (error result)))
  else
    let status_symbol :=
      dict_get [("OK", "✓"); ("WARNING", "⚠"); ("CRITICAL", "✗");
                ("ERROR", "✗")] (status result) "?" in
    expiry_date ←
      match expiry_date result with
      | Some d => mret d
      | None => raise (Exn AttributeError
                         "'NoneType' object has no attribute 'strftime'")
      end;
    emit (Print ("Certificate Expiry Date: "
                 +:+ strftime P expiry_date "%Y-%m-%d %H:%M:%S"));;
    emit (Print ("Days Until Expiry: "
                 +:+ fmt_int (days_until_expiry result) +:+ " days "
                 +:+ status_symbol));;
    match days_until_expiry result with
    | Some days_until_expiry =>
        when (days_until_expiry <? 0)
             (emit (Print "⚠️  CERTIFICATE HAS EXPIRED!"))
    | None =>
        raise (Exn TypeError
          "'<' not supported between instances of 'NoneType' and 'int'")
    end.

Definition display_results (now : datetime) (results : list result)
  : M unit :=
  emit (Print (nl +:+ str_mul "=" 80));;
  emit (Print "SSL/TLS CERTIFICATE EXPIRY CHECK RESULTS");;
  emit (Print (str_mul "=" 80));;
  emit (Print ("Scan completed at: " +:+ strftime P now "%Y-%m-%d %H:%M:%S"));;
  emit (Print (str_mul "-" 80));;
  for_each display_result results;;
  emit (Print (nl +:+ str_mul "=" 80)).

(** [_create_alert_message(results, format_type)], lines 287-345;
    [email_row] and [text_entry] are the bodies of its two loops. *)
Definition email_header : string :=
"
            <html>
            <body>
            <h2>SSL Certificate Alert</h2>
            <p>The following certificates require attention:</p>
            <table border=" +:+ dq +:+ "1" +:+ dq +:+ " cellpadding=" +:+ dq
  +:+ "5" +:+ dq +:+ " cellspacing=" +:+ dq +:+ "0" +:+ dq +:+ ">
            <tr>
                <th>Website</th>
                <th>Status</th>
                <th>Days Until Expiry</th>
                <th>Expiry Date</th>
                <th>Details</th>
            </tr>
            ".

Definition email_footer : string :=
"
            </table>
            </body>
            </html>
            ".

Definition email_row (result : result) : string :=
  let status_color :=
    dict_get [("CRITICAL", "#ff0000"); ("WARNING", "#ff9900");
              ("ERROR", "#cc0000")] (status result) "#000000" in
"
                <tr>
                    <td>" +:+ hostname result +:+ ":" +:+ str (port result)
  +:+ "</td>
                    <td style=" +:+ dq +:+ "color: " +:+ status_color
  +:+ "; font-weight: bold;" +:+ dq +:+ ">" +:+ status result +:+ "</td>
                    <td>"
  +:+ fmt_int (get_present (days_until_expiry result) "N/A") +:+ "</td>
                    <td>"
  +:+ match expiry_date result with
      | Some d => strftime P d "%Y-%m-%d"
      | None => "N/A"
      end +:+ "</td>
                    <td>"
  +:+ fmt_str (get_present (error result) "Certificate expiring soon")
  +:+ "</td>
                </tr>
                ".

Definition text_entry (result : result) : string :=
  "• " +:+ hostname result +:+ ":" +:+ str (port result) +:+ " - "
  +:+ status result +:+ nl
  +:+ match days_until_expiry result with
      | Some d => "  Days until expiry: " +:+ str d +:+ nl
      | None => ""
      end
  +:+ (if truthy (error result)
       then "  Error: " +:+ fmt_str (error result) +:+ nl
       else "").

Definition _create_alert_message (results : list result)
    (format_type : string) : string :=
  if bool_decide (format_type = "email") then
    foldl (λ message result, message +:+ email_row result)
          email_header results
    +:+ email_footer
  else
    foldl (λ message result, message +:+ text_entry result)
          ("SSL Certificate Alert" +:+ nl +:+ nl) results.

(** [_create_slack_payload(results)], lines 347-395; [slack_attachment] is
    the body of its loop. [clock i] is [int(datetime.now().timestamp())] as
    read while the attachment of index [i] is built. *)
Definition slack_attachment (now_ts : Z) (result : result)
  : Slack.attachment :=
  let color :=
    dict_get [("CRITICAL", "danger"); ("WARNING", "warning");
              ("ERROR", "danger")] (status result) "#808080" in
  let fields :=
    [ {| Slack.title := "Website";
         Slack.value := hostname result +:+ ":" +:+ str (port result);
         Slack.short := true |};
      {| Slack.title := "Status";
         Slack.value := status result;
         Slack.short := true |} ] in
  let fields :=
    match days_until_expiry result with
    | Some d =>
        fields ++ [ {| Slack.title := "Days Until Expiry";
                       Slack.value := str d;
                       Slack.short := true |} ]
    | None => fields
    end in
  let fields :=
    if truthy (error result) then
      fields ++ [ {| Slack.title := "Error";
                     Slack.value := fmt_str (error result);
                     Slack.short := false |} ]
    else fields in
  {| Slack.color := color;
     Slack.fields := fields;
     Slack.footer := "SSL Certificate Checker";
     Slack.ts := now_ts |}.

Definition _create_slack_payload (clock : nat → Z) (results : list result)
  : Slack.payload :=
  {| Slack.text := "⚠️ SSL Certificate Alert";
     Slack.attachments :=
       imap (λ i result, slack_attachment (clock i) result) results |}.

(** [_create_teams_payload(results)], lines 397-437; [teams_section] is the
    body of its loop. *)
Definition teams_section (result : result) : Teams.section :=
  let facts :=
    [ {| Teams.name := "Website";
         Teams.value := hostname result +:+ ":" +:+ str (port result) |};
      {| Teams.name := "Status"; Teams.value := status result |} ] in
  let facts :=
    match days_until_expiry result with
    | Some d =>
        facts ++ [ {| Teams.name := "Days Until Expiry";
                      Teams.value := str d |} ]
    | None => facts
    end in
  let facts :=
    if truthy (error result) then
      facts ++ [ {| Teams.name := "Error";
                    Teams.value := fmt_str (error result) |} ]
    else facts in
  {| Teams.activityTitle := "Certificate Alert: " +:+ hostname result;
     Teams.facts := facts |}.

Definition _create_teams_payload (results : list result) : Teams.payload :=
  {| Teams.type_ := "MessageCard";
     Teams.context := "https://schema.org/extensions";
     Teams.summary := "SSL Certificate Alert";
     Teams.themeColor := "FF0000";
     Teams.title := "⚠️ SSL Certificate Alert";
     Teams.sections := teams_section <$> results |}.

(** [_send_email_alert(results, email_config)], lines 227-257. The session
    is the context manager of the [with] statement of line 247: the block is
    entered once [smtplib.SMTP(server, port)] has connected, and leaving it
    sends QUIT. *)
Definition _send_email_alert (results : list result)
    (email_config : email_config) : M unit :=
  try_except
    (let subject :=
       default "SSL Certificate Alert" (email_subject email_config) in
     from ← getitem "from" (email_from email_config);
     to ← getitem "to" (email_to email_config);
     let body := _create_alert_message results "email" in
     let msg :=
       {| msg_Subject := subject; msg_From := from;
          msg_To := join ", " to; msg_html := body |} in
     server ← getitem "smtp_server" (smtp_server email_config);
     port ← getitem "smtp_port" (smtp_port email_config);
     emit (SmtpConnect server port);;
     lift_unit (smtp_connect P server port);;
     with_block
       (when (default true (use_tls email_config))
             (emit SmtpStartTls;; lift_unit (smtp_starttls P));;
        when (truthy (username email_config)
              && truthy (password email_config))
             (let user := fmt_str (username email_config) in
              let pass := fmt_str (password email_config) in
              emit (SmtpLogin user pass);; lift_unit (smtp_login P user pass));;
        emit (SmtpSendMessage msg);;
        lift_unit (smtp_send_message P msg))
       (emit SmtpQuit;; lift_unit (smtp_quit P));;
     emit (LogInfo "Email alert sent successfully"))
    [ (Exception, λ e,
        emit (LogError ("Failed to send email alert: " +:+ exn_str e))) ].

(** [_send_webhook_alert(results, webhook_config)], lines 259-285. *)
Definition _send_webhook_alert (clock : nat → Z) (results : list result)
    (webhook_config : webhook_config) : M unit :=
  try_except
    (webhook_url ← getitem "url" (webhook_url webhook_config);
     let webhook_type := default "slack" (webhook_type webhook_config) in
     let send payload :=
       emit (HttpPost webhook_url payload 10);;
       response ← lift (requests_post P webhook_url payload 10);
       lift_unit (raise_for_status P response);;
       emit (LogInfo (capitalize webhook_type
                      +:+ " webhook alert sent successfully")) in
     if bool_decide (webhook_type = "slack") then
       send (SlackPayload (_create_slack_payload clock results))
     else if bool_decide (webhook_type = "teams") then
       send (TeamsPayload (_create_teams_payload results))
     else
       emit (LogError ("Unsupported webhook type: " +:+ webhook_type)))
    [ (Exception, λ e,
        emit (LogError ("Failed to send webhook alert: " +:+ exn_str e))) ].

(** The filter of lines 210-213. *)
Definition alert_results (results : list result) : list result :=
  filter (λ r, status r ∈ ["WARNING"; "CRITICAL"; "ERROR"]) results.

(** [send_alerts], lines 201-225. *)
Definition send_alerts (clock : nat → Z) (results : list result) : M unit :=
  let alerts_config := default no_alerts (alerts cfg) in
  if negb (default false (alerts_enabled alerts_config)) then
    emit (LogInfo "Alerts are disabled in configuration")
  else
    let alert_results := alert_results results in
    match alert_results with
    | [] => emit (LogInfo "No certificates require alerts")
    | _ =>
        when (default false
                (email_enabled
                   (default no_email (alerts_email alerts_config))))
             (email_config ← getitem "email" (alerts_email alerts_config);
              _send_email_alert alert_results email_config);;
        when (default false
                (webhook_enabled
                   (default no_webhook (alerts_webhook alerts_config))))
             (webhook_config ←
                getitem "webhook" (alerts_webhook alerts_config);
              _send_webhook_alert clock alert_results webhook_config)
    end.

(** ** main *)

(** The exit code chosen at lines 475-484 from [checker.results]. *)
Definition exit_code (results : list result) : Z :=
  let critical_count :=
    Z.of_nat (length (filter (λ r, status r = "CRITICAL") results)) in
  if 0 <? critical_count then 2
  else
    let error_count :=
      Z.of_nat (length (filter (λ r, status r = "ERROR") results)) in
    if 0 <? error_count then 1 else 0.

(** The [try] block of [main], lines 463-491, once the configuration is
    loaded: the events of the run and the exit status of the process.
    [sys.exit(n)] leaves through [SystemExit], which [except Exception] does
    not catch, so the block yields [n]. [KeyboardInterrupt], the other
    clause, is no [Exception] either and is raised by the user, not by the
    code: [main] is the block of a run that is left alone, and [main_entry]
    has the clause for the run that is interrupted. *)
Definition main (quiet : bool) (completed : list (website * datetime))
    (now : datetime) (clock : nat → Z) : M Z :=
  try_except
    (results ← check_all_certificates completed [];
     when (negb quiet) (display_results now results);;
     send_alerts clock results;;
     mret (exit_code results))
    [ (Exception, λ e,
        emit (LogError ("Unexpected error: " +:+ exn_str e));;
        mret 1) ].

End CertificateChecker.

(** ** Reading a rendering *)

(** [needle in hay]. *)
Fixpoint contains (needle hay : string) : bool :=
  if String.prefix needle hay then true
  else match hay with
       | EmptyString => false
       | String _ rest => contains needle rest
       end.

(** A text announces an expired certificate when it has the word, in any
    letter case. *)
Definition mentions_expired (s : string) : bool :=
  contains "EXPIRED" (str_map upper s).

(** The lines that a computation printed. *)
Definition printed {A} (m : M A) : list string :=
  omap (λ ev, match ev with Print line => Some line | _ => None end) (trace m).

(** Every string of a Slack attachment and of a Teams section. *)
Definition slack_strings (a : Slack.attachment) : list string :=
  Slack.color a :: Slack.footer a
  :: concat ((λ f, [Slack.title f; Slack.value f]) <$> Slack.fields a).

Definition teams_strings (s : Teams.section) : list string :=
  Teams.activityTitle s
  :: concat ((λ f, [Teams.name f; Teams.value f]) <$> Teams.facts s).

(** The fields of an entry as (label, value) pairs, and the value under a
    label. *)
Definition slack_pairs (a : Slack.attachment) : list (string * string) :=
  (λ f, (Slack.title f, Slack.value f)) <$> Slack.fields a.

Definition teams_pairs (s : Teams.section) : list (string * string) :=
  (λ f, (Teams.name f, Teams.value f)) <$> Teams.facts s.

Fixpoint assoc (label : string) (l : list (string * string))
  : option string :=
  match l with
  | [] => None
  | (k, v) :: rest => if bool_decide (k = label) then Some v else assoc label rest
  end.

(** The labelled values of a result in a webhook entry: the host and port,
    the status, the day count when there is one, the error message when
    there is one. *)
Definition entry_pairs (r : result) : list (string * string) :=
  [ ("Website", hostname r +:+ ":" +:+ str (port r));
    ("Status", status r) ]
  ++ match days_until_expiry r with
     | Some d => [ ("Days Until Expiry", str d) ]
     | None => []
     end
  ++ (if truthy (error r) then [ ("Error", fmt_str (error r)) ] else []).

(** What each channel does in a run of [send_alerts] that has something to
    report: nothing when the channel is not enabled, and the whole of its
    own send otherwise. *)
Definition email_channel (P : platform) (alerts_config : alerts_config)
    (alert_results : list result) : list event :=
  match alerts_email alerts_config with
  | Some email_config =>
      if default false (email_enabled email_config)
      then trace (_send_email_alert P alert_results email_config)
      else []
  | None => []
  end.

Definition webhook_channel (P : platform) (alerts_config : alerts_config)
    (clock : nat → Z) (alert_results : list result) : list event :=
  match alerts_webhook alerts_config with
  | Some webhook_config =>
      if default false (webhook_enabled webhook_config)
      then trace (_send_webhook_alert P clock alert_results webhook_config)
      else []
  | None => []
  end.

(** The events by which a channel reaches out. *)
Definition is_send (ev : event) : bool :=
  match ev with
  | SmtpConnect _ _ | SmtpStartTls | SmtpLogin _ _ | SmtpSendMessage _
  | SmtpQuit | HttpPost _ _ _ => true
  | LogInfo _ | LogError _ | Print _ => false
  end.

(** What the alert channels may send about the results [ar]: the webhook
    bodies and the email body built from [ar], and nothing else. *)
Definition built_from (P : platform) (clock : nat → Z) (ar : list result)
    (ev : event) : Prop :=
  match ev with
  | HttpPost _ json _ =>
      json = SlackPayload (_create_slack_payload clock ar)
      ∨ json = TeamsPayload (_create_teams_payload ar)
  | SmtpSendMessage msg => msg_html msg = _create_alert_message P ar "email"
  | _ => True
  end.

(** A result as [check_all_certificates] builds them: it carries an error
    message, or an expiry date with its day count. *)
Definition well_formed (r : result) : Prop :=
  truthy (error r) = true
  ∨ (is_Some (expiry_date r) ∧ is_Some (days_until_expiry r)).

(** What the specification asks of every rendering of an expired
    certificate: the console lines, the email row, the Slack attachment and
    the Teams section all announce it as expired. *)
Definition flagged_everywhere (P : platform) (r : result) : Prop :=
  existsb mentions_expired (printed (display_result P r)) = true
  ∧ mentions_expired (email_row P r) = true
  ∧ existsb mentions_expired (slack_strings (slack_attachment 0 r)) = true
  ∧ existsb mentions_expired (teams_strings (teams_section r)) = true.

(** What the specification asks of every alert entry: the host and port,
    the status, the day count or [N/A], and the error message or the default
    note. *)
Definition days_text (r : result) : string :=
  match days_until_expiry r with Some d => str d | None => "N/A" end.

Definition details_text (r : result) : string :=
  if truthy (error r) then fmt_str (error r)
  else "Certificate expiring soon".

Definition entry_texts (r : result) : list string :=
  [ hostname r +:+ ":" +:+ str (port r); status r; days_text r;
    details_text r ].

Definition complete_everywhere (P : platform) (r : result) : Prop :=
  forallb (λ s, contains s (email_row P r)) (entry_texts r) = true
  ∧ forallb (λ s, existsb (contains s)
                    (slack_strings (slack_attachment 0 r)))
            (entry_texts r) = true
  ∧ forallb (λ s, existsb (contains s) (teams_strings (teams_section r)))
            (entry_texts r) = true.

(** The two day counts that [check_all_certificates] compares against:
    [thresholds.get('critical', 7)] and [thresholds.get('warning', 30)] on
    [config.get('thresholds', {})]. *)
Definition criticalDays (cfg : config) : Z :=
  default 7 (critical (default no_thresholds (thresholds cfg))).

Definition warningDays (cfg : config) : Z :=
  default 30 (warning (default no_thresholds (thresholds cfg))).

(** The message that [get_certificate_expiry] returns for an exception of
    its [try] block, clause by clause. *)
Definition failure_message (hostname : string) (e : exn) : string :=
  if issubclass (exn_cls e) socket_timeout then
    "Connection timeout for " +:+ hostname
  else if issubclass (exn_cls e) socket_gaierror then
    "DNS resolution failed for " +:+ hostname
  else if issubclass (exn_cls e) SSLError then
    "SSL error for " +:+ hostname +:+ ": " +:+ exn_str e
  else
    "Unexpected error for " +:+ hostname +:+ ": " +:+ exn_str e.

(** ** A sample run *)

Module Sample.

Definition at_day (day sec : Z) : datetime :=
  {| ordinal := day; second := sec; microsecond := 0 |}.

(** A platform on which [slow.example] times out, [nodns.example] does not
    resolve, [badssl.example] fails the handshake, [down.example] refuses
    the connection, every other host presents a certificate that expires at
    the start of day 740000, and the mail server refuses connections. *)
Definition P : platform :=
  {| create_connection h p t :=
       if bool_decide (h = "slow.example") then
         inl (Exn socket_timeout "timed out")
       else if bool_decide (h = "nodns.example") then
         inl (Exn socket_gaierror "[Errno -2] Name or service not known")
       else if bool_decide (h = "down.example") then
         inl (Exn ConnectionRefusedError "[Errno 111] Connection refused")
       else inr 3%nat;
     wrap_socket s h :=
       if bool_decide (h = "badssl.example") then
         inl (Exn SSLCertVerificationError "certificate verify failed")
       else inr s;
     getpeercert s := inr (Some {[ "notAfter" := "Jan  1 00:00:00 2027 GMT" ]});
     strptime s f := inr (at_day 740000 0);
     strftime d f := "2027-01-01";
     smtp_connect s p :=
       Some (Exn ConnectionRefusedError "[Errno 111] Connection refused");
     smtp_starttls := None;
     smtp_login u p := None;
     smtp_send_message m := None;
     smtp_quit := None;
     requests_post u p t := inr 200;
     raise_for_status c := None;
     thread_schedule := [] |}.

Definition email : email_config :=
  {| email_enabled := Some true; email_subject := None;
     email_from := Some "certs@example.org";
     email_to := Some ["ops@example.org"];
     smtp_server := Some "smtp.example.org"; smtp_port := Some 587;
     use_tls := None; username := None; password := None |}.

Definition webhook : webhook_config :=
  {| webhook_enabled := Some true;
     webhook_url := Some "https://hooks.example.org/T0";
     webhook_type := Some "teams" |}.

Definition site (h : string) : website :=
  {| site_hostname := h; site_port := None |}.

Definition cfg : config :=
  {| websites := Some [site "ok.example"; site "nodns.example";
                       site "exp.example"];
     max_workers := None; thresholds := None;
     alerts := Some {| alerts_enabled := Some true;
                       alerts_email := Some email;
                       alerts_webhook := Some webhook |} |}.

Definition clock (i : nat) : Z := 1800000000 + Z.of_nat i.

(** An expired certificate, five days past its date. *)
Definition expired : result :=
  {| hostname := "exp.example"; port := 443;
     expiry_date := Some (at_day 740000 0); error := None;
     days_until_expiry := Some (-5); status := "CRITICAL" |}.

(** A host that could not be reached. *)
Definition unreachable : result :=
  {| hostname := "nodns.example"; port := 443; expiry_date := None;
     error := Some "DNS resolution failed for nodns.example";
     days_until_expiry := None; status := "ERROR" |}.

(** A certificate in good standing. *)
Definition healthy : result :=
  {| hostname := "ok.example"; port := 443;
     expiry_date := Some (at_day 740000 0); error := None;
     days_until_expiry := Some 1000; status := "OK" |}.

(** A run over three sites, in the order in which they completed, each with
    the clock reading taken while its result was built. *)
Definition completed : list (website * datetime) :=
  [ (site "ok.example", at_day 739000 0);
    (site "nodns.example", at_day 739000 0);
    (site "exp.example", at_day 740004 1) ].

End Sample.

(** ** Loading the configuration *)

(** [s.endswith(suffix)]. *)
Definition endswith (s suffix : string) : bool :=
  let n := String.length s in
  let k := String.length suffix in
  bool_decide (k ≤ n)%nat
  && bool_decide (String.substring (n - k) k s = suffix).

(** What [open(config_path, 'r')] does: it yields the file, raises
    [FileNotFoundError], or raises another exception. *)
Inductive opened :=
  | Opened (file : string)
  | FileNotFoundError (msg : string)
  | OpenFailed (e : exn).

(** The file system and the two parsers. A parser yields the configuration
    that the text stands for, or raises. *)
Record filesystem := {
  (** [os.path.exists(path)] *)
  path_exists : string → bool;
  (** [open(path, 'r')] *)
  open_ : string → opened;
  (** [json.load(file)] *)
  json_load : string → exn + config;
  (** [yaml.safe_load(file)] *)
  yaml_safe_load : string → exn + config }.

(** How [_load_config] ends: with the configuration, or in [sys.exit(code)],
    which is no [Exception] and goes through every [except Exception]. *)
Inductive loaded :=
  | Loaded (config : config)
  | SysExit (code : Z).

(** [_load_config(config_path)], lines 45-68. The first clause,
    [except FileNotFoundError], is met by [open] only; every other exception
    of the block goes to [except Exception]. *)
Definition _load_config (F : filesystem) (config_path : string) : M loaded :=
  match open_ F config_path with
  | FileNotFoundError _ =>
      emit (LogError ("Configuration file not found: " +:+ config_path));;
      mret (SysExit 1)
  | OpenFailed e =>
      emit (LogError ("Error loading configuration: " +:+ exn_str e));;
      mret (SysExit 1)
  | Opened file =>
      try_except
        (if endswith config_path ".json" then
           config ← lift (json_load F file); mret (Loaded config)
         else if endswith config_path ".yml" || endswith config_path ".yaml"
         then
           config ← lift (yaml_safe_load F file); mret (Loaded config)
         else raise (Exn ValueError "Config file must be JSON or YAML"))
        [ (Exception, λ e,
            emit (LogError ("Error loading configuration: " +:+ exn_str e));;
            mret (SysExit 1)) ]
  end.


(** ** More to say about results and events *)

(** What holds of every result that the check builds: its status is one of
    the four, it is ERROR exactly when there is an error message, the
    message is not empty, and the date and the day count are there exactly
    when there is no message. *)
Definition coherent (r : result) : Prop :=
  status r ∈ ["OK"; "WARNING"; "CRITICAL"; "ERROR"]
  ∧ (status r = "ERROR" ↔ is_Some (error r))
  ∧ truthy (error r) = bool_decide (is_Some (error r))
  ∧ (expiry_date r = None ↔ is_Some (error r))
  ∧ (days_until_expiry r = None ↔ is_Some (error r)).

(** ** Instants and what clocks show *)

(** An instant is a number of microseconds since the epoch, 1970-01-01
    00:00:00 UTC, whose day has ordinal 719163. [wall utc_offset t] is the
    naive [datetime] that a clock set [utc_offset] microseconds ahead of UTC
    shows at the instant [t]. [datetime.now()], line 148, is [wall] of the
    instant of the call at the offset of the host's time zone. The
    [notAfter] text of a certificate is in GMT, and [strptime], line 95,
    returns its fields as they are written, its [%Z] directive leaving the
    result naive: [wall] of the instant of expiry at offset 0. *)
Definition epoch_ordinal : Z := 719163.

Definition wall (utc_offset instant : Z) : datetime :=
  let shown := instant + utc_offset in
  {| ordinal := epoch_ordinal + shown `div` us_per_day;
     second := (shown `mod` us_per_day) `div` 1000000;
     microsecond := shown `mod` 1000000 |}.

Definition hour : Z := 3600 * 1000000.

(** The result that the check builds for one completed future: the
    classification of what [get_certificate_expiry] returns for its site. *)
Definition checked (P : platform) (cfg : config) (c : website * datetime)
  : result :=
  let h := site_hostname c.1 in
  classify cfg c.1 c.2
    match outcome (retrieve_expiry P h (default 443 (site_port c.1)) 10) with
    | inr d => (h, Some d, None)
    | inl e => (h, None, Some (failure_message h e))
    end.


(** How urgent a status is. *)
Definition severity (status : string) : Z :=
  if bool_decide (status = "CRITICAL") then 2
  else if bool_decide (status = "WARNING") then 1
  else 0.


Definition is_log (ev : event) : bool :=
  match ev with LogInfo _ | LogError _ => true | _ => false end.

Definition is_smtp (ev : event) : bool :=
  match ev with
  | SmtpConnect _ _ | SmtpStartTls | SmtpLogin _ _ | SmtpSendMessage _
  | SmtpQuit => true
  | _ => false
  end.

Definition is_post (ev : event) : bool :=
  match ev with HttpPost _ _ _ => true | _ => false end.

(** [''.join(l)]. *)
Definition concat_str (l : list string) : string :=
  foldr String.append "" l.

(** The message that [_send_email_alert] hands to the mail server. *)
Definition email_message (P : platform) (results : list result)
    (email_config : email_config) (from : string) (to : list string)
  : mime_message :=
  {| msg_Subject := default "SSL Certificate Alert" (email_subject email_config);
     msg_From := from;
     msg_To := join ", " to;
     msg_html := _create_alert_message P results "email" |}.

(** The body that [_send_webhook_alert] posts: the Slack payload for the
    type [slack], which is also the type of a webhook that names none, and
    the Teams payload otherwise. *)
Definition webhook_json (clock : nat → Z) (results : list result)
    (webhook_config : webhook_config) : webhook_payload :=
  if bool_decide (default "slack" (webhook_type webhook_config) = "slack")
  then SlackPayload (_create_slack_payload clock results)
  else TeamsPayload (_create_teams_payload results).

(** ** More sample data *)

Module Demo.

(** The sample platform with a mail server that takes the message. *)
Definition P : platform :=
  {| create_connection := create_connection Sample.P;
     wrap_socket := wrap_socket Sample.P;
     getpeercert := getpeercert Sample.P;
     strptime := strptime Sample.P;
     strftime := strftime Sample.P;
     smtp_connect s p := None;
     smtp_starttls := None;
     smtp_login u p := None;
     smtp_send_message m := None;
     smtp_quit := None;
     requests_post := requests_post Sample.P;
     raise_for_status := raise_for_status Sample.P;
     thread_schedule := [1; 0; 1; 0]%nat |}.

(** The same with a mail server that takes the message and answers QUIT
    with an error. *)
Definition P_bad_quit : platform :=
  {| create_connection := create_connection Sample.P;
     wrap_socket := wrap_socket Sample.P;
     getpeercert := getpeercert Sample.P;
     strptime := strptime Sample.P;
     strftime := strftime Sample.P;
     smtp_connect s p := None;
     smtp_starttls := None;
     smtp_login u p := None;
     smtp_send_message m := None;
     smtp_quit :=
       Some (Exn SMTPResponseException "(421, b'Service not available')");
     requests_post := requests_post Sample.P;
     raise_for_status := raise_for_status Sample.P;
     thread_schedule := [] |}.

(** The sample platform with hosts whose certificate has no expiry date. *)
Definition P_no_date : platform :=
  {| create_connection h p t := inr 3%nat;
     wrap_socket s h := inr s;
     getpeercert s := inr (Some ∅);
     strptime := strptime Sample.P;
     strftime := strftime Sample.P;
     smtp_connect := smtp_connect Sample.P;
     smtp_starttls := None;
     smtp_login u p := None;
     smtp_send_message m := None;
     smtp_quit := None;
     requests_post u p t := inr 503;
     raise_for_status c :=
       Some (Exn HTTPError "503 Server Error: Service Unavailable");
     thread_schedule := [] |}.

(** The sample configuration with a pool of no worker. *)
Definition no_workers : config :=
  {| websites := websites Sample.cfg; max_workers := Some 0;
     thresholds := None; alerts := alerts Sample.cfg |}.

(** Thresholds given the wrong way round. *)
Definition inverted : config :=
  {| websites := None; max_workers := None;
     thresholds := Some {| critical := Some 30; warning := Some 7 |};
     alerts := None |}.

(** A mail account with credentials, and a webhook of a type that the
    program does not know. *)
Definition email : email_config :=
  {| email_enabled := Some true; email_subject := Some "Certificates";
     email_from := Some "certs@example.org";
     email_to := Some ["ops@example.org"; "sec@example.org"];
     smtp_server := Some "smtp.example.org"; smtp_port := Some 587;
     use_tls := None; username := Some "certs"; password := Some "s3cret" |}.

Definition discord : webhook_config :=
  {| webhook_enabled := Some true;
     webhook_url := Some "https://hooks.example.org/D0";
     webhook_type := Some "discord" |}.

Definition slack : webhook_config :=
  {| webhook_enabled := Some true;
     webhook_url := Some "https://hooks.example.org/S0";
     webhook_type := None |}.

(** A file system with a JSON configuration, a YAML one that does not
    parse, and a file with another extension. *)
Definition F : filesystem :=
  {| path_exists p :=
       bool_decide (p ∈ ["config.json"; "broken.yaml"; "config.toml"]);
     open_ p :=
       if bool_decide (p ∈ ["config.json"; "broken.yaml"; "config.toml"])
       then Opened p
       else FileNotFoundError "[Errno 2] No such file or directory";
     json_load f := inr Sample.cfg;
     yaml_safe_load f := inl (Exn ValueError "mapping values are not allowed here") |}.

End Demo.

(** * Properties *)

(** ** The monad *)

Section Monad.

Context {A B : Type}.

Lemma outcome_bind (m : M A) (k : A → M B) :
  outcome (m ≫= k)
  = match outcome m with inl e => inl e | inr a => outcome (k a) end.
Proof.
  destruct m as [tr [e|a]]; simpl; [done|].
  unfold outcome; simpl. by destruct (k a).
Qed.

Lemma trace_bind (m : M A) (k : A → M B) :
  trace (m ≫= k)
  = trace m ++ match outcome m with inl _ => [] | inr a => trace (k a) end.
Proof.
  destruct m as [tr [e|a]]; unfold trace; simpl.
  - by rewrite app_nil_r.
  - by destruct (k a).
Qed.

Lemma issubclass_Exception (c : exn_class) : issubclass c Exception = true.
Proof. by destruct c. Qed.

(** A [try] with the single clause [except Exception] lets nothing out
    that its handler does not raise. *)
Lemma outcome_try_except_all (body : M A) (h : exn → M A) :
  outcome (try_except body [(Exception, h)])
  = match outcome body with inl e => outcome (h e) | inr a => inr a end.
Proof.
  destruct body as [tr [e|a]]; unfold outcome; simpl; [|done].
  rewrite issubclass_Exception. by destruct (h e).
Qed.

Lemma trace_try_except_all (body : M A) (h : exn → M A) :
  trace (try_except body [(Exception, h)])
  = trace body
    ++ match outcome body with inl e => trace (h e) | inr _ => [] end.
Proof.
  destruct body as [tr [e|a]]; unfold trace; simpl.
  - rewrite issubclass_Exception. by destruct (h e).
  - by rewrite app_nil_r.
Qed.

End Monad.

Lemma append_ne_empty (c : Ascii.ascii) (s t : string) :
  String c s +:+ t ≠ "".
Proof. done. Qed.

(** ** The fetcher *)

Section Fetcher.

Variable P : platform.

Lemma failure_message_nonempty (h : string) (e : exn) :
  failure_message h e ≠ "".
Proof.
  unfold failure_message.
  repeat case_match; apply append_ne_empty.
Qed.

(** What [get_certificate_expiry] returns, from what its [try] block did. *)
Lemma get_certificate_expiry_outcome (h : string) (p t : Z) :
  outcome (get_certificate_expiry P h p t)
  = match outcome (retrieve_expiry P h p t) with
    | inr d => inr (h, Some d, None)
    | inl e => inr (h, None, Some (failure_message h e))
    end.
Proof.
  unfold get_certificate_expiry, failure_message.
  destruct (retrieve_expiry P h p t) as [tr [[c m]|d]]; [|done].
  destruct c; reflexivity.
Qed.

End Fetcher.

(** C10. [get_certificate_expiry] lets no exception out: for every host
    name, port and timeout it returns a triple whose first component is the
    host name it was given, and exactly one of the other two is present.
    When the [try] block yields a date, the triple has that date and no
    error; when the block raises (a timeout, a DNS failure, an SSL failure
    or any other exception) the triple has no date and the non-empty
    message of the clause that caught the exception. *)
Theorem get_certificate_expiry_total (P : platform) (h : string) (p t : Z) :
  ∃ expiry err,
    outcome (get_certificate_expiry P h p t) = inr (h, expiry, err)
    ∧ ((is_Some expiry ∧ err = None)
       ∨ (expiry = None ∧ ∃ m, err = Some m ∧ m ≠ ""))
    ∧ match outcome (retrieve_expiry P h p t) with
      | inr d => expiry = Some d ∧ err = None
      | inl e => expiry = None ∧ err = Some (failure_message h e)
      end.
Proof.
  rewrite get_certificate_expiry_outcome.
  destruct (outcome (retrieve_expiry P h p t)) as [e|d].
  - exists None, (Some (failure_message h e)).
    split; [done|]. split; [|done].
    right. split; [done|]. eexists. split; [done|].
    apply failure_message_nonempty.
  - exists (Some d), None. split; [done|]. split; [|done]. by left.
Qed.

(** The message of each clause, by the class of the exception. *)
Lemma failure_message_cases (h m : string) :
  failure_message h (Exn socket_timeout m) = "Connection timeout for " +:+ h
  ∧ failure_message h (Exn socket_gaierror m)
    = "DNS resolution failed for " +:+ h
  ∧ failure_message h (Exn SSLError m)
    = "SSL error for " +:+ h +:+ ": " +:+ m
  ∧ failure_message h (Exn SSLCertVerificationError m)
    = "SSL error for " +:+ h +:+ ": " +:+ m
  ∧ failure_message h (Exn ConnectionRefusedError m)
    = "Unexpected error for " +:+ h +:+ ": " +:+ m
  ∧ failure_message h (Exn KeyError m)
    = "Unexpected error for " +:+ h +:+ ": " +:+ m
  ∧ failure_message h (Exn ValueError m)
    = "Unexpected error for " +:+ h +:+ ": " +:+ m.
Proof. done. Qed.

(** ** The classifier *)

Section Classifier.

Variable cfg : config.

(** The status and day count given to a fetch that returned a date. *)
Lemma classify_success (site : website) (now : datetime) (h : string)
    (e : datetime) :
  classify cfg site now (h, Some e, None)
  = {| hostname := h; port := default 443 (site_port site);
       expiry_date := Some e; error := None;
       days_until_expiry := Some (days (sub e now));
       status := if days (sub e now) <=? criticalDays cfg then "CRITICAL"
                 else if days (sub e now) <=? warningDays cfg then "WARNING"
                 else "OK" |}.
Proof.
  unfold classify, criticalDays, warningDays.
  by repeat case_match.
Qed.

(** The result given to a fetch that returned an error message. *)
Lemma classify_failure (site : website) (now : datetime) (h m : string) :
  m ≠ "" →
  classify cfg site now (h, None, Some m)
  = {| hostname := h; port := default 443 (site_port site);
       expiry_date := None; error := Some m;
       days_until_expiry := None; status := "ERROR" |}.
Proof.
  intros Hm. unfold classify; simpl.
  by rewrite bool_decide_eq_false_2.
Qed.

(** [timedelta.days] of a difference is the floor of the difference in
    days. *)
Lemma sub_days_floor (e now : datetime) :
  days (sub e now) = (to_us e - to_us now) `div` us_per_day.
Proof.
  unfold sub, timedelta_new, to_us, us_per_day; simpl.
  set (dO := ordinal e - ordinal now).
  set (dS := second e - second now).
  set (dU := microsecond e - microsecond now).
  replace ((ordinal e * 86400 + second e) * 1000000 + microsecond e
           - ((ordinal now * 86400 + second now) * 1000000
              + microsecond now))
    with ((dO * 86400 + dS) * 1000000 + dU) by (unfold dO, dS, dU; lia).
  transitivity
    ((((dO * 86400 + dS) * 1000000 + dU) `div` 1000000) `div` 86400).
  - rewrite Z.div_add_l by lia.
    by rewrite <- Z.add_assoc, Z.div_add_l by lia.
  - rewrite Z.div_div by lia. f_equal.
Qed.

End Classifier.

(** C1. A fetch that returned an expiry date is classified by its day count
    [d]: CRITICAL when [d] is at most the critical threshold, negative
    counts included; otherwise WARNING when [d] is at most the warning
    threshold; otherwise OK. The critical test comes first, so a count
    within both thresholds is CRITICAL. *)
Theorem classify_by_thresholds (cfg : config) (site : website)
    (now : datetime) (h : string) (e : datetime) (d : Z) :
  d = days (sub e now) →
  let r := classify cfg site now (h, Some e, None) in
  days_until_expiry r = Some d
  ∧ (d ≤ criticalDays cfg → status r = "CRITICAL")
  ∧ (d ≤ criticalDays cfg → d ≤ warningDays cfg → status r = "CRITICAL")
  ∧ (criticalDays cfg < d → d ≤ warningDays cfg → status r = "WARNING")
  ∧ (criticalDays cfg < d → warningDays cfg < d → status r = "OK").
Proof.
  intros -> r. subst r. rewrite classify_success; simpl.
  split; [done|].
  repeat split; intros; repeat case_match; done || lia.
Qed.

Lemma classify_by_thresholds_witness :
  let classified now :=
    classify Sample.cfg (Sample.site "www.example")
             (Sample.at_day now 0) ("www.example", Some (Sample.at_day 740000 0), None) in
  status (classified 740005) = "CRITICAL"
  ∧ status (classified 739993) = "CRITICAL"
  ∧ status (classified 739992) = "WARNING"
  ∧ status (classified 739970) = "WARNING"
  ∧ status (classified 739969) = "OK".
Proof.
  pose proof (λ now d, classify_by_thresholds Sample.cfg
    (Sample.site "www.example") (Sample.at_day now 0) "www.example"
    (Sample.at_day 740000 0) d) as H.
  simpl. split_and!.
  - destruct (H 740005 (-5) eq_refl) as (_ & Hc & _).
    apply Hc. by vm_compute.
  - destruct (H 739993 7 eq_refl) as (_ & _ & Hc & _).
    apply Hc; by vm_compute.
  - destruct (H 739992 8 eq_refl) as (_ & _ & _ & Hw & _).
    apply Hw; by vm_compute.
  - destruct (H 739970 30 eq_refl) as (_ & _ & _ & Hw & _).
    apply Hw; by vm_compute.
  - destruct (H 739969 31 eq_refl) as (_ & _ & _ & _ & Hok).
    apply Hok; by vm_compute.
Defined.

(** C2. When the [try] block of the fetch raised, whatever the thresholds,
    the result has status ERROR and no day count: no threshold is compared
    against. *)
Theorem failure_is_error (P : platform) (cfg : config) (site : website)
    (now : datetime) (h : string) (p t : Z) (e : exn) :
  outcome (retrieve_expiry P h p t) = inl e →
  ∃ fetched,
    outcome (get_certificate_expiry P h p t) = inr fetched
    ∧ status (classify cfg site now fetched) = "ERROR"
    ∧ days_until_expiry (classify cfg site now fetched) = None
    ∧ error (classify cfg site now fetched) = Some (failure_message h e).
Proof.
  intros He. rewrite get_certificate_expiry_outcome, He.
  eexists; split; [done|].
  by rewrite classify_failure by apply failure_message_nonempty.
Qed.

Lemma failure_is_error_witness :
  ∃ fetched,
    outcome (get_certificate_expiry Sample.P "slow.example" 443 10)
    = inr fetched
    ∧ status (classify Sample.cfg (Sample.site "slow.example")
                       (Sample.at_day 739000 0) fetched) = "ERROR"
    ∧ days_until_expiry (classify Sample.cfg (Sample.site "slow.example")
                                  (Sample.at_day 739000 0) fetched) = None
    ∧ error (classify Sample.cfg (Sample.site "slow.example")
                      (Sample.at_day 739000 0) fetched)
      = Some "Connection timeout for slow.example".
Proof.
  apply (failure_is_error Sample.P Sample.cfg (Sample.site "slow.example")
           (Sample.at_day 739000 0) "slow.example" 443 10
           (Exn socket_timeout "timed out")).
  reflexivity.
Defined.

(** What a clock shows is as far from the epoch as the instant is, plus
    the offset of the clock. *)
Lemma to_us_wall (utc_offset instant : Z) :
  to_us (wall utc_offset instant)
  = epoch_ordinal * us_per_day + instant + utc_offset.
Proof.
  unfold to_us, wall; cbn [ordinal second microsecond].
  set (shown := instant + utc_offset).
  assert (shown `mod` 1000000 = (shown `mod` us_per_day) `mod` 1000000)
    as Hmicro.
  { rewrite (Z.mod_eq shown us_per_day) by done.
    replace (shown - us_per_day * (shown `div` us_per_day))
      with (shown + (- 86400 * (shown `div` us_per_day)) * 1000000)
      by (unfold us_per_day; lia).
    by rewrite Z.mod_add. }
  pose proof (Z.div_mod shown us_per_day) as Hday.
  pose proof (Z.div_mod (shown `mod` us_per_day) 1000000) as Hsecond.
  unfold us_per_day in *. lia.
Qed.

(** C8. The day count is the floor, in whole days, of the difference of two
    naive readings: the expiry date as the certificate writes it, in GMT,
    and the local time of the host. For the instant of expiry [e] and the
    instant [now] on a host whose clock is [utc_offset] ahead of UTC, that
    is the floor of [e - now - utc_offset], which is the floor of [e - now]
    of the specification on a host that keeps UTC and not in general. On a
    host at UTC+9, a certificate with 8 days and 2 hours left is given 7
    days, and is CRITICAL under the default thresholds where 8 days is
    WARNING; on a host at UTC-5, a certificate that expired 2 hours ago is
    given 0 days, not a negative count. *)
Theorem days_until_expiry_mixes_zones (cfg : config) (site : website)
    (h : string) :
  (∀ e now : datetime,
     days_until_expiry (classify cfg site now (h, Some e, None))
     = Some ((to_us e - to_us now) `div` us_per_day))
  ∧ (∀ utc_offset e now : Z,
       days_until_expiry
         (classify cfg site (wall utc_offset now) (h, Some (wall 0 e), None))
       = Some ((e - now - utc_offset) `div` us_per_day))
  ∧ (∀ e now : Z,
       days_until_expiry
         (classify cfg site (wall 0 now) (h, Some (wall 0 e), None))
       = Some ((e - now) `div` us_per_day))
  ∧ (let now := 1800000000 * 1000000 in
     let e := now + 8 * us_per_day + 2 * hour in
     let r :=
       classify Sample.cfg site (wall (9 * hour) now)
                (h, Some (wall 0 e), None) in
     (e - now) `div` us_per_day = 8
     ∧ days_until_expiry r = Some 7
     ∧ status r = "CRITICAL"
     ∧ status (classify Sample.cfg site (wall 0 now)
                        (h, Some (wall 0 e), None)) = "WARNING")
  ∧ (let now := 1800000000 * 1000000 in
     let e := now - 2 * hour in
     let r :=
       classify Sample.cfg site (wall (-5 * hour) now)
                (h, Some (wall 0 e), None) in
     (e - now) `div` us_per_day = -1
     ∧ days_until_expiry r = Some 0).
Proof.
  assert (∀ e now : datetime,
            days_until_expiry (classify cfg site now (h, Some e, None))
            = Some ((to_us e - to_us now) `div` us_per_day)) as Hfloor.
  { intros e now. by rewrite classify_success, sub_days_floor. }
  assert (∀ utc_offset e now : Z,
            days_until_expiry
              (classify cfg site (wall utc_offset now)
                        (h, Some (wall 0 e), None))
            = Some ((e - now - utc_offset) `div` us_per_day)) as Hzones.
  { intros utc_offset e now. rewrite Hfloor, !to_us_wall.
    do 2 f_equal. lia. }
  split; [done|]. split; [done|]. split.
  { intros e now. rewrite Hzones. do 2 f_equal. lia. }
  split.
  - split; [done|]. by rewrite !classify_success.
  - split; [done|]. by rewrite !classify_success.
Qed.

(** ** The webhook payloads *)

Lemma slack_pairs_attachment (now_ts : Z) (r : result) :
  slack_pairs (slack_attachment now_ts r) = entry_pairs r.
Proof.
  unfold slack_pairs, slack_attachment, entry_pairs; simpl.
  by destruct (days_until_expiry r), (truthy (error r)).
Qed.

Lemma teams_pairs_section (r : result) :
  teams_pairs (teams_section r) = entry_pairs r.
Proof.
  unfold teams_pairs, teams_section, entry_pairs; simpl.
  by destruct (days_until_expiry r), (truthy (error r)).
Qed.

Lemma assoc_status (r : result) :
  assoc "Status" (entry_pairs r) = Some (status r).
Proof. done. Qed.

Lemma assoc_days (r : result) :
  assoc "Days Until Expiry" (entry_pairs r) = str <$> days_until_expiry r.
Proof.
  unfold entry_pairs.
  by destruct (days_until_expiry r), (truthy (error r)).
Qed.

Lemma slack_pairs_payload (clock : nat → Z) (results : list result) :
  slack_pairs <$> Slack.attachments (_create_slack_payload clock results)
  = entry_pairs <$> results.
Proof.
  simpl. rewrite fmap_imap, <- imap_const.
  apply imap_ext. intros i r _. apply slack_pairs_attachment.
Qed.

Lemma teams_pairs_payload (results : list result) :
  teams_pairs <$> Teams.sections (_create_teams_payload results)
  = entry_pairs <$> results.
Proof.
  simpl. rewrite <- list_fmap_compose.
  apply list_fmap_ext. intros i r _. apply teams_pairs_section.
Qed.

(** C9. Built from the same results, the Slack payload has one attachment
    and the Teams payload one section for each result, in the same order.
    The attachment and the section of a result hold the same labelled
    values, among them the status of the result and, when it has one, its
    day count. *)
Theorem slack_teams_equivalent (clock : nat → Z) (results : list result) :
  let attachments := Slack.attachments (_create_slack_payload clock results) in
  let sections := Teams.sections (_create_teams_payload results) in
  length attachments = length results
  ∧ length sections = length results
  ∧ slack_pairs <$> attachments = teams_pairs <$> sections
  ∧ (λ a, (assoc "Status" (slack_pairs a),
           assoc "Days Until Expiry" (slack_pairs a))) <$> attachments
    = (λ r, (Some (status r), str <$> days_until_expiry r)) <$> results
  ∧ (λ s, (assoc "Status" (teams_pairs s),
           assoc "Days Until Expiry" (teams_pairs s))) <$> sections
    = (λ r, (Some (status r), str <$> days_until_expiry r)) <$> results.
Proof.
  intros attachments sections.
  pose proof (slack_pairs_payload clock results) as Hs.
  pose proof (teams_pairs_payload results) as Ht.
  fold attachments in Hs. fold sections in Ht.
  split_and!.
  - subst attachments. simpl. apply length_imap.
  - subst sections. simpl. apply length_fmap.
  - by rewrite Hs, Ht.
  - rewrite (list_fmap_compose slack_pairs
               (λ p, (assoc "Status" p, assoc "Days Until Expiry" p))).
    rewrite Hs, <- list_fmap_compose.
    apply list_fmap_ext. intros i r _. unfold compose.
    by rewrite assoc_status, assoc_days.
  - rewrite (list_fmap_compose teams_pairs
               (λ p, (assoc "Status" p, assoc "Days Until Expiry" p))).
    rewrite Ht, <- list_fmap_compose.
    apply list_fmap_ext. intros i r _. unfold compose.
    by rewrite assoc_status, assoc_days.
Qed.

(** ** The alert sender *)

Section AlertSender.

Variable P : platform.

Lemma bind_ret_l {A B} (a : A) (k : A → M B) : mret a ≫= k = k a.
Proof. unfold mret, M_ret, mbind, M_bind. by destruct (k a). Qed.

Lemma _send_email_alert_never_raises (results : list result)
    (ec : email_config) :
  outcome (_send_email_alert P results ec) = inr tt.
Proof.
  unfold _send_email_alert. rewrite outcome_try_except_all.
  by destruct (outcome _) as [e|[]].
Qed.

Lemma _send_webhook_alert_never_raises (clock : nat → Z)
    (results : list result) (wc : webhook_config) :
  outcome (_send_webhook_alert P clock results wc) = inr tt.
Proof.
  unfold _send_webhook_alert. rewrite outcome_try_except_all.
  by destruct (outcome _) as [e|[]].
Qed.

Lemma email_step (ac : alerts_config) (ar : list result) :
  let m :=
    when (default false (email_enabled (default no_email (alerts_email ac))))
         (email_config ← getitem "email" (alerts_email ac);
          _send_email_alert P ar email_config) in
  outcome m = inr tt ∧ trace m = email_channel P ac ar.
Proof.
  unfold email_channel.
  destruct (alerts_email ac) as [ec|]; simpl; [|done].
  destruct (default false (email_enabled ec)); simpl; [|done].
  pose proof (_send_email_alert_never_raises ar ec) as Ho.
  by destruct (_send_email_alert P ar ec).
Qed.

Lemma webhook_step (ac : alerts_config) (clock : nat → Z)
    (ar : list result) :
  let m :=
    when (default false
            (webhook_enabled (default no_webhook (alerts_webhook ac))))
         (webhook_config ← getitem "webhook" (alerts_webhook ac);
          _send_webhook_alert P clock ar webhook_config) in
  outcome m = inr tt ∧ trace m = webhook_channel P ac clock ar.
Proof.
  unfold webhook_channel.
  destruct (alerts_webhook ac) as [wc|]; simpl; [|done].
  destruct (default false (webhook_enabled wc)); simpl; [|done].
  pose proof (_send_webhook_alert_never_raises clock ar wc) as Ho.
  by destruct (_send_webhook_alert P clock ar wc).
Qed.

(** A run of [send_alerts] with alerts enabled and something to report. *)
Lemma send_alerts_channels (cfg : config) (clock : nat → Z)
    (results : list result) (ac : alerts_config) :
  alerts cfg = Some ac →
  default false (alerts_enabled ac) = true →
  alert_results results ≠ [] →
  outcome (send_alerts P cfg clock results) = inr tt
  ∧ trace (send_alerts P cfg clock results)
    = email_channel P ac (alert_results results)
      ++ webhook_channel P ac clock (alert_results results).
Proof.
  intros Hac Hen Har. unfold send_alerts.
  rewrite Hac; simpl. rewrite Hen; simpl.
  destruct (alert_results results) as [|r ar] eqn:Heq; [done|].
  destruct (email_step ac (r :: ar)) as [Heo Het].
  destruct (webhook_step ac clock (r :: ar)) as [Hwo Hwt].
  rewrite outcome_bind, trace_bind, Heo, Het, Hwt. done.
Qed.

(** The two runs of [send_alerts] that send nothing. *)
Lemma send_alerts_disabled (cfg : config) (clock : nat → Z)
    (results : list result) :
  default false (alerts_enabled (default no_alerts (alerts cfg))) = false →
  send_alerts P cfg clock results
  = emit (LogInfo "Alerts are disabled in configuration").
Proof. intros Hen. unfold send_alerts. by rewrite Hen. Qed.

Lemma send_alerts_nothing (cfg : config) (clock : nat → Z)
    (results : list result) :
  default false (alerts_enabled (default no_alerts (alerts cfg))) = true →
  alert_results results = [] →
  send_alerts P cfg clock results
  = emit (LogInfo "No certificates require alerts").
Proof. intros Hen Har. unfold send_alerts. by rewrite Hen, Har. Qed.

Lemma send_alerts_never_raises (cfg : config) (clock : nat → Z)
    (results : list result) :
  outcome (send_alerts P cfg clock results) = inr tt.
Proof.
  destruct (default false (alerts_enabled (default no_alerts (alerts cfg))))
    eqn:Hen.
  - destruct (alert_results results) as [|r ar] eqn:Har.
    + by rewrite send_alerts_nothing.
    + destruct (alerts cfg) as [ac|] eqn:Hac; [|done].
      eapply send_alerts_channels; [done..|]. by rewrite Har.
  - by rewrite send_alerts_disabled.
Qed.

End AlertSender.

(** ** Events of a computation *)

Section Events.

Context {A B : Type} (Q : event → Prop).

Lemma Forall_trace_bind (m : M A) (k : A → M B) :
  Forall Q (trace m) →
  (∀ a, outcome m = inr a → Forall Q (trace (k a))) →
  Forall Q (trace (m ≫= k)).
Proof.
  intros Hm Hk. rewrite trace_bind. apply Forall_app. split; [done|].
  destruct (outcome m) as [e|a]; [constructor | by apply Hk].
Qed.

Lemma Forall_trace_try (body : M A) (h : exn → M A) :
  Forall Q (trace body) →
  (∀ e, Forall Q (trace (h e))) →
  Forall Q (trace (try_except body [(Exception, h)])).
Proof.
  intros Hb Hh. rewrite trace_try_except_all. apply Forall_app.
  split; [done|]. destruct (outcome body); [apply Hh | constructor].
Qed.

Lemma Forall_trace_emit (ev : event) : Q ev → Forall Q (trace (emit ev)).
Proof. intros. by repeat constructor. Qed.

Lemma Forall_trace_lift (r : exn + A) : Forall Q (trace (lift r)).
Proof. constructor. Qed.

Lemma Forall_trace_lift_unit (r : option exn) :
  Forall Q (trace (lift_unit r)).
Proof. destruct r; constructor. Qed.

Lemma Forall_trace_getitem (key : string) (o : option A) :
  Forall Q (trace (getitem key o)).
Proof. destruct o; constructor. Qed.

Lemma Forall_trace_when (b : bool) (m : M unit) :
  Forall Q (trace m) → Forall Q (trace (when b m)).
Proof. destruct b; [done | constructor]. Qed.

Lemma trace_with_block (body : M A) (exit : M unit) :
  trace (with_block body exit) = trace body ++ trace exit.
Proof. by destruct body, exit. Qed.

Lemma outcome_with_block (body : M A) (exit : M unit) :
  outcome (with_block body exit)
  = match outcome exit with inl e => inl e | inr _ => outcome body end.
Proof. by destruct body, exit. Qed.

Lemma Forall_trace_with (body : M A) (exit : M unit) :
  Forall Q (trace body) → Forall Q (trace exit) →
  Forall Q (trace (with_block body exit)).
Proof. intros. rewrite trace_with_block. by apply Forall_app. Qed.

Lemma Forall_interleave (schedule : list nat) (logs : list (list event)) :
  Forall (Forall Q) logs → Forall Q (interleave schedule logs).
Proof.
  revert logs. induction schedule as [|i rest IH]; intros logs Hlogs; simpl.
  - by apply Forall_concat.
  - destruct (logs !! i) as [[|ev evs]|] eqn:Hi; [by apply IH| |by apply IH].
    pose proof (Forall_lookup_1 _ _ _ _ Hlogs Hi) as Hthread.
    apply Forall_cons in Hthread as [Hev Hevs].
    constructor; [done|]. apply IH. by apply Forall_insert.
Qed.

End Events.

(** Goes through a computation statement by statement, leaving what has to
    hold of each event that it emits. *)
Ltac step_trace :=
  repeat first
    [ apply Forall_trace_try; [|intros ?]
    | apply Forall_trace_bind; [|intros ? _]
    | apply Forall_trace_with
    | apply Forall_trace_when
    | apply Forall_trace_lift
    | apply Forall_trace_lift_unit
    | apply Forall_trace_getitem
    | apply Forall_trace_emit ].

Section Payloads.

Variable P : platform.

Lemma _send_email_alert_built_from (clock : nat → Z) (ar : list result)
    (ec : email_config) :
  Forall (built_from P clock ar) (trace (_send_email_alert P ar ec)).
Proof. unfold _send_email_alert. step_trace; done. Qed.

Lemma _send_webhook_alert_built_from (clock : nat → Z) (ar : list result)
    (wc : webhook_config) :
  Forall (built_from P clock ar) (trace (_send_webhook_alert P clock ar wc)).
Proof.
  unfold _send_webhook_alert. step_trace; [|done].
  repeat case_match; step_trace; simpl; auto.
Qed.

End Payloads.

Section Attempts.

Variable P : platform.

(** An enabled webhook with a URL and a known type posts, whatever else
    happens in the run. *)
Lemma _send_webhook_alert_posts (clock : nat → Z) (ar : list result)
    (wc : webhook_config) (url : string) :
  webhook_url wc = Some url →
  default "slack" (webhook_type wc) ∈ ["slack"; "teams"] →
  ∃ json rest,
    trace (_send_webhook_alert P clock ar wc) = HttpPost url json 10 :: rest.
Proof.
  intros Hurl Hty. unfold _send_webhook_alert.
  rewrite trace_try_except_all, Hurl. unfold getitem. rewrite bind_ret_l.
  repeat case_match; try (rewrite !trace_bind; simpl; by eauto).
  all: exfalso; repeat match goal with
         | H : bool_decide _ = false |- _ => apply bool_decide_eq_false in H
         end; rewrite !elem_of_cons, elem_of_nil in Hty;
       destruct Hty as [?|[?|[]]]; done.
Qed.

(** An enabled email channel with its four keys opens a connection to the
    mail server, whatever else happens in the run. *)
Lemma _send_email_alert_connects (ar : list result) (ec : email_config)
    (from server : string) (to : list string) (port : Z) :
  email_from ec = Some from →
  email_to ec = Some to →
  smtp_server ec = Some server →
  smtp_port ec = Some port →
  ∃ rest, trace (_send_email_alert P ar ec) = SmtpConnect server port :: rest.
Proof.
  intros Hfrom Hto Hserver Hport. unfold _send_email_alert.
  rewrite trace_try_except_all, Hfrom, Hto, Hserver, Hport.
  unfold getitem. rewrite !bind_ret_l, !trace_bind. simpl. by eauto.
Qed.

End Attempts.

(** C7. In a run of [send_alerts] with alerts enabled and something to
    report, every enabled channel makes its own send in full: the events of
    the run are those of the email send, when email is enabled, followed by
    those of the webhook send, when the webhook is enabled, whatever the
    platform does to either. So an enabled and configured webhook posts
    even when the email send fails, the email channel has connected before
    the webhook is tried, and [send_alerts] returns without raising. *)
Theorem channels_independent (P : platform) (cfg : config)
    (clock : nat → Z) (results : list result) (ac : alerts_config) :
  alerts cfg = Some ac →
  alerts_enabled ac = Some true →
  alert_results results ≠ [] →
  let run := send_alerts P cfg clock results in
  let ar := alert_results results in
  outcome run = inr tt
  ∧ trace run = email_channel P ac ar ++ webhook_channel P ac clock ar
  ∧ (∀ wc url,
       alerts_webhook ac = Some wc →
       webhook_enabled wc = Some true →
       webhook_url wc = Some url →
       default "slack" (webhook_type wc) ∈ ["slack"; "teams"] →
       ∃ json, HttpPost url json 10 ∈ trace run)
  ∧ (∀ ec from to server port,
       alerts_email ac = Some ec →
       email_enabled ec = Some true →
       email_from ec = Some from →
       email_to ec = Some to →
       smtp_server ec = Some server →
       smtp_port ec = Some port →
       SmtpConnect server port ∈ trace run).
Proof.
  intros Hac Hen Har run ar.
  destruct (send_alerts_channels P cfg clock results ac) as [Ho Ht];
    [done | by rewrite Hen | done |].
  fold run in Ho, Ht. fold ar in Ht.
  split; [done|]. split; [done|]. rewrite Ht. split.
  - intros wc url Hwc Hon Hurl Hty.
    destruct (_send_webhook_alert_posts P clock ar wc url) as (json & rest & Hp);
      [done..|].
    exists json. apply elem_of_app; right.
    unfold webhook_channel. rewrite Hwc, Hon; simpl. rewrite Hp. by left.
  - intros ec from to server port Hec Hon Hfrom Hto Hserver Hport.
    destruct (_send_email_alert_connects P ar ec from server to port)
      as (rest & Hp); [done..|].
    apply elem_of_app; left.
    unfold email_channel. rewrite Hec, Hon; simpl. rewrite Hp. by left.
Qed.

Lemma channels_independent_witness :
  let run := send_alerts Sample.P Sample.cfg Sample.clock
               [Sample.healthy; Sample.unreachable] in
  outcome run = inr tt
  ∧ LogError "Failed to send email alert: [Errno 111] Connection refused"
    ∈ trace run
  ∧ SmtpConnect "smtp.example.org" 587 ∈ trace run
  ∧ ∃ json, HttpPost "https://hooks.example.org/T0" json 10 ∈ trace run.
Proof.
  destruct (channels_independent Sample.P Sample.cfg Sample.clock
              [Sample.healthy; Sample.unreachable]
              (default no_alerts (alerts Sample.cfg)))
    as (Ho & Ht & Hpost & Hconnect);
    [reflexivity | reflexivity | by vm_compute |].
  intros run. subst run. split; [exact Ho|]. split; [|split].
  - rewrite Ht. apply elem_of_app; left. vm_compute.
    apply list_elem_of_further, list_elem_of_here.
  - apply (Hconnect Sample.email "certs@example.org" ["ops@example.org"]);
      reflexivity.
  - apply (Hpost Sample.webhook); [reflexivity..|].
    apply list_elem_of_further, list_elem_of_here.
Defined.

Lemma send_alerts_built_from (P : platform) (cfg : config) (clock : nat → Z)
    (results : list result) :
  Forall (built_from P clock (alert_results results))
         (trace (send_alerts P cfg clock results)).
Proof.
  unfold send_alerts. case_match; [by step_trace|].
  destruct (alert_results results) as [|r ar] eqn:Har; [by step_trace|].
  apply Forall_trace_bind; [|intros _ _];
    apply Forall_trace_when, Forall_trace_bind;
    try apply Forall_trace_getitem; intros ? _.
  - apply _send_email_alert_built_from.
  - apply _send_webhook_alert_built_from.
Qed.

Lemma alert_results_non_ok (results : list result) (r : result) :
  r ∈ alert_results results → status r ≠ "OK".
Proof.
  intros [Hst _]%list_elem_of_filter Hok. rewrite Hok in Hst.
  rewrite !elem_of_cons, elem_of_nil in Hst.
  by destruct Hst as [?|[?|[?|[]]]].
Qed.

(** C4. The alert pipeline keeps exactly the results whose status is
    WARNING, CRITICAL or ERROR. Every webhook body and every email body
    that a run sends is built from the results kept, so no OK result is in
    any of them. When no result is kept, the run reaches out on no channel
    and returns normally. *)
Theorem alerts_only_for_non_ok (P : platform) (cfg : config)
    (clock : nat → Z) (results : list result) :
  let run := send_alerts P cfg clock results in
  (∀ r, r ∈ alert_results results
        ↔ r ∈ results ∧ status r ∈ ["WARNING"; "CRITICAL"; "ERROR"])
  ∧ (∀ r, r ∈ alert_results results → status r ≠ "OK")
  ∧ Forall (built_from P clock (alert_results results)) (trace run)
  ∧ (alert_results results = [] →
     Forall (λ ev, is_send ev = false) (trace run) ∧ outcome run = inr tt).
Proof.
  intros run. split_and!.
  - intros r. unfold alert_results. rewrite list_elem_of_filter. tauto.
  - apply alert_results_non_ok.
  - apply send_alerts_built_from.
  - intros Har. subst run.
    destruct (default false (alerts_enabled (default no_alerts (alerts cfg))))
      eqn:Hen.
    + rewrite send_alerts_nothing by done. by repeat constructor.
    + rewrite send_alerts_disabled by done. by repeat constructor.
Qed.

Lemma alerts_only_for_non_ok_witness :
  let run := send_alerts Sample.P Sample.cfg Sample.clock [Sample.healthy] in
  (Sample.healthy ∉ alert_results [Sample.healthy; Sample.unreachable])
  ∧ trace run = [LogInfo "No certificates require alerts"]
  ∧ Forall (λ ev, is_send ev = false) (trace run)
  ∧ outcome run = inr tt.
Proof.
  destruct (alerts_only_for_non_ok Sample.P Sample.cfg Sample.clock
              [Sample.healthy; Sample.unreachable]) as (_ & Hok & _).
  destruct (alerts_only_for_non_ok Sample.P Sample.cfg Sample.clock
              [Sample.healthy]) as (_ & _ & _ & Hnone).
  split; [|split].
  - intros Hin. by apply (Hok Sample.healthy Hin).
  - reflexivity.
  - apply Hnone. reflexivity.
Defined.

(** ** Renderings *)

Lemma append_cons (c : Ascii.ascii) (a b : string) :
  String c a +:+ b = String c (a +:+ b).
Proof. done. Qed.

Lemma prefix_append (n b : string) : String.prefix n (n +:+ b) = true.
Proof.
  induction n as [|c n IH]; [by destruct b|].
  rewrite append_cons; simpl. by destruct (Ascii.ascii_dec c c).
Qed.

Lemma contains_unfold (n h : string) :
  contains n h
  = if String.prefix n h then true
    else match h with
         | EmptyString => false
         | String _ rest => contains n rest
         end.
Proof. by destruct h. Qed.

Lemma contains_here (n b : string) : contains n (n +:+ b) = true.
Proof. by rewrite contains_unfold, prefix_append. Qed.

Lemma contains_skip (n a b : string) :
  contains n b = true → contains n (a +:+ b) = true.
Proof.
  intros H. induction a as [|c a IH]; [done|].
  rewrite append_cons, contains_unfold, IH. by case_match.
Qed.

Lemma append_assoc (a b c : string) : a +:+ b +:+ c = (a +:+ b) +:+ c.
Proof.
  induction a as [|x a IH]; [done|].
  by rewrite !append_cons, IH.
Qed.

Lemma contains_here3 (a b c rest : string) :
  contains (a +:+ b +:+ c) (a +:+ b +:+ c +:+ rest) = true.
Proof.
  replace (a +:+ b +:+ c +:+ rest) with ((a +:+ b +:+ c) +:+ rest)
    by (by rewrite <- !append_assoc).
  apply contains_here.
Qed.

(** Looks for the needle in a concatenation, piece by piece. *)
Ltac find_needle :=
  repeat first
    [ apply contains_here | apply contains_here3 | apply contains_skip ].

Lemma str_negative (d : Z) : d < 0 → str d = "-" +:+ str (- d).
Proof. by destruct d. Qed.

Section Renderings.

Variable P : platform.

(** The email row holds the host and port, the status, the day count when
    there is one and the error message when there is one. *)
Lemma email_row_contains (r : result) :
  contains (hostname r +:+ ":" +:+ str (port r)) (email_row P r) = true
  ∧ contains (status r) (email_row P r) = true
  ∧ match days_until_expiry r with
    | Some d => contains (str d) (email_row P r) = true
    | None => True
    end
  ∧ match error r with
    | Some m => contains m (email_row P r) = true
    | None => True
    end.
Proof.
  unfold email_row, get_present. split_and!.
  - find_needle.
  - find_needle.
  - destruct (days_until_expiry r); [|done]. unfold fmt_int. find_needle.
  - destruct (error r); [|done]. unfold fmt_str. find_needle.
Qed.

(** What the console prints for a result with no error, an expiry date and
    a negative day count. *)
Lemma display_result_expired (r : result) (e : datetime) (d : Z) :
  truthy (error r) = false →
  expiry_date r = Some e →
  days_until_expiry r = Some d →
  d < 0 →
  display_result P r
  = ([ Print (nl +:+ "Website: " +:+ hostname r +:+ ":" +:+ str (port r));
       Print ("Status: " +:+ status r);
       Print ("Certificate Expiry Date: "
              +:+ strftime P e "%Y-%m-%d %H:%M:%S");
       Print ("Days Until Expiry: " +:+ str d +:+ " days "
              +:+ dict_get [("OK", "✓"); ("WARNING", "⚠"); ("CRITICAL", "✗");
                            ("ERROR", "✗")] (status r) "?");
       Print "⚠️  CERTIFICATE HAS EXPIRED!" ],
     inr tt).
Proof.
  intros Herr He Hd Hneg. unfold display_result.
  rewrite Herr, He, Hd. simpl.
  by rewrite (proj2 (Z.ltb_lt d 0) Hneg).
Qed.

End Renderings.

(** C5, as the specification states it, fails: the certificate of
    [exp.example], five days past its date, is announced as expired on the
    console only. Its email row, Slack attachment and Teams section say
    CRITICAL and -5 and have no word of expiry. *)
Lemma expired_not_flagged_everywhere :
  days_until_expiry Sample.expired = Some (-5)
  ∧ existsb mentions_expired
      (printed (display_result Sample.P Sample.expired)) = true
  ∧ mentions_expired (email_row Sample.P Sample.expired) = false
  ∧ existsb mentions_expired
      (slack_strings (slack_attachment 0 Sample.expired)) = false
  ∧ existsb mentions_expired
      (teams_strings (teams_section Sample.expired)) = false
  ∧ ¬ flagged_everywhere Sample.P Sample.expired.
Proof.
  split_and!; try by vm_compute.
  intros (_ & He & _). vm_compute in He. discriminate.
Qed.

(** C5, amended. A result with a negative day count is set apart as expired
    on the console: when it has no error, [display_results] prints the line
    CERTIFICATE HAS EXPIRED! after its day count. The alert renderings have
    no expired marker. The Slack attachment is the colour of the status, the
    usual labelled values, the footer and the time stamp, and nothing else;
    the Teams section is its title and the same labelled values, and nothing
    else; the email row is the usual five cells, and nothing else. In each
    of them the day count stands where it stands for any other result,
    written with its minus sign. *)
Theorem expired_flag (P : platform) (r : result) (d now_ts : Z) :
  days_until_expiry r = Some d →
  d < 0 →
  (truthy (error r) = false → is_Some (expiry_date r) →
   outcome (display_result P r) = inr tt
   ∧ last (printed (display_result P r))
     = Some "⚠️  CERTIFICATE HAS EXPIRED!")
  ∧ slack_pairs (slack_attachment now_ts r)
    = [ ("Website", hostname r +:+ ":" +:+ str (port r));
        ("Status", status r);
        ("Days Until Expiry", "-" +:+ str (- d)) ]
      ++ (if truthy (error r) then [ ("Error", fmt_str (error r)) ] else [])
  ∧ teams_pairs (teams_section r)
    = slack_pairs (slack_attachment now_ts r)
  ∧ contains ("-" +:+ str (- d)) (email_row P r) = true
  ∧ slack_attachment now_ts r
    = {| Slack.color :=
           dict_get [("CRITICAL", "danger"); ("WARNING", "warning");
                     ("ERROR", "danger")] (status r) "#808080";
         Slack.fields :=
           [ {| Slack.title := "Website";
                Slack.value := hostname r +:+ ":" +:+ str (port r);
                Slack.short := true |};
             {| Slack.title := "Status"; Slack.value := status r;
                Slack.short := true |};
             {| Slack.title := "Days Until Expiry";
                Slack.value := "-" +:+ str (- d);
                Slack.short := true |} ]
           ++ (if truthy (error r)
               then [ {| Slack.title := "Error";
                         Slack.value := fmt_str (error r);
                         Slack.short := false |} ]
               else []);
         Slack.footer := "SSL Certificate Checker";
         Slack.ts := now_ts |}
  ∧ teams_section r
    = {| Teams.activityTitle := "Certificate Alert: " +:+ hostname r;
         Teams.facts :=
           [ {| Teams.name := "Website";
                Teams.value := hostname r +:+ ":" +:+ str (port r) |};
             {| Teams.name := "Status"; Teams.value := status r |};
             {| Teams.name := "Days Until Expiry";
                Teams.value := "-" +:+ str (- d) |} ]
           ++ (if truthy (error r)
               then [ {| Teams.name := "Error";
                         Teams.value := fmt_str (error r) |} ]
               else []) |}
  ∧ email_row P r
    = "
                <tr>
                    <td>" +:+ hostname r +:+ ":" +:+ str (port r)
      +:+ "</td>
                    <td style=" +:+ dq +:+ "color: "
      +:+ dict_get [("CRITICAL", "#ff0000"); ("WARNING", "#ff9900");
                    ("ERROR", "#cc0000")] (status r) "#000000"
      +:+ "; font-weight: bold;" +:+ dq +:+ ">" +:+ status r +:+ "</td>
                    <td>"
      +:+ ("-" +:+ str (- d)) +:+ "</td>
                    <td>"
      +:+ match expiry_date r with
          | Some e => strftime P e "%Y-%m-%d"
          | None => "N/A"
          end +:+ "</td>
                    <td>"
      +:+ fmt_str (error r)
      +:+ "</td>
                </tr>
                ".
Proof.
  intros Hd Hneg. split_and!.
  - intros Herr [e He].
    by rewrite (display_result_expired P r e d).
  - rewrite slack_pairs_attachment. unfold entry_pairs.
    by rewrite Hd, (str_negative d Hneg).
  - by rewrite slack_pairs_attachment, teams_pairs_section.
  - unfold email_row, get_present. rewrite Hd. unfold fmt_int.
    rewrite (str_negative d Hneg). find_needle.
  - unfold slack_attachment. rewrite Hd, (str_negative d Hneg).
    by destruct (truthy (error r)).
  - unfold teams_section. rewrite Hd, (str_negative d Hneg).
    by destruct (truthy (error r)).
  - unfold email_row, get_present. rewrite Hd. unfold fmt_int.
    by rewrite (str_negative d Hneg).
Qed.

Lemma expired_flag_witness :
  last (printed (display_result Sample.P Sample.expired))
  = Some "⚠️  CERTIFICATE HAS EXPIRED!"
  ∧ slack_pairs (slack_attachment 0 Sample.expired)
    = [ ("Website", "exp.example:443"); ("Status", "CRITICAL");
        ("Days Until Expiry", "-5") ]
  ∧ contains "-5" (email_row Sample.P Sample.expired) = true
  ∧ slack_attachment 0 Sample.expired
    = {| Slack.color := "danger";
         Slack.fields :=
           [ {| Slack.title := "Website"; Slack.value := "exp.example:443";
                Slack.short := true |};
             {| Slack.title := "Status"; Slack.value := "CRITICAL";
                Slack.short := true |};
             {| Slack.title := "Days Until Expiry"; Slack.value := "-5";
                Slack.short := true |} ];
         Slack.footer := "SSL Certificate Checker";
         Slack.ts := 0 |}
  ∧ teams_section Sample.expired
    = {| Teams.activityTitle := "Certificate Alert: exp.example";
         Teams.facts :=
           [ {| Teams.name := "Website"; Teams.value := "exp.example:443" |};
             {| Teams.name := "Status"; Teams.value := "CRITICAL" |};
             {| Teams.name := "Days Until Expiry"; Teams.value := "-5" |} ] |}
  ∧ email_row Sample.P Sample.expired
    = "
                <tr>
                    <td>exp.example:443</td>
                    <td style=" +:+ dq
      +:+ "color: #ff0000; font-weight: bold;" +:+ dq +:+ ">CRITICAL</td>
                    <td>-5</td>
                    <td>2027-01-01</td>
                    <td>None</td>
                </tr>
                ".
Proof.
  destruct (expired_flag Sample.P Sample.expired (-5) 0)
    as (Hconsole & Hslack & _ & Hemail & Hattachment & Hsection & Hrow);
    [reflexivity | reflexivity |].
  split_and!.
  - apply Hconsole; [reflexivity | by eexists].
  - exact Hslack.
  - exact Hemail.
  - exact Hattachment.
  - exact Hsection.
  - exact Hrow.
Defined.

(** C6, as the specification states it, fails on the webhook entries. The
    unreachable host has no day count, and its Slack attachment and Teams
    section have no [N/A] in its place; the expired certificate has no error
    message, and its entries have no default note in its place. *)
Lemma alert_entry_not_complete :
  Sample.unreachable ∈ alert_results [Sample.unreachable; Sample.expired]
  ∧ Sample.expired ∈ alert_results [Sample.unreachable; Sample.expired]
  ∧ days_text Sample.unreachable = "N/A"
  ∧ existsb (contains "N/A")
      (slack_strings (slack_attachment 0 Sample.unreachable)) = false
  ∧ existsb (contains "N/A")
      (teams_strings (teams_section Sample.unreachable)) = false
  ∧ details_text Sample.expired = "Certificate expiring soon"
  ∧ existsb (contains "Certificate expiring soon")
      (slack_strings (slack_attachment 0 Sample.expired)) = false
  ∧ existsb (contains "Certificate expiring soon")
      (teams_strings (teams_section Sample.expired)) = false
  ∧ ¬ complete_everywhere Sample.P Sample.unreachable
  ∧ ¬ complete_everywhere Sample.P Sample.expired.
Proof.
  split_and!; try by vm_compute.
  - apply list_elem_of_here.
  - apply list_elem_of_further, list_elem_of_here.
  - intros (_ & Hs & _). vm_compute in Hs. discriminate.
  - intros (_ & Hs & _). vm_compute in Hs. discriminate.
Qed.

(** C6, amended. Every rendering of a result has its host and port and its
    status. The Slack attachment and the Teams section have the day count
    exactly when the result has one and the error message exactly when the
    result has a non-empty one; a field that has no value is left out. The
    email row has the day count when the result has one and the error
    message when the result has one. *)
Theorem alert_entry_contents (P : platform) (now_ts : Z) (r : result) :
  slack_pairs (slack_attachment now_ts r)
  = [ ("Website", hostname r +:+ ":" +:+ str (port r));
      ("Status", status r) ]
    ++ match days_until_expiry r with
       | Some d => [ ("Days Until Expiry", str d) ]
       | None => []
       end
    ++ (if truthy (error r) then [ ("Error", fmt_str (error r)) ] else [])
  ∧ teams_pairs (teams_section r) = slack_pairs (slack_attachment now_ts r)
  ∧ contains (hostname r +:+ ":" +:+ str (port r)) (email_row P r) = true
  ∧ contains (status r) (email_row P r) = true
  ∧ match days_until_expiry r with
    | Some d => contains (str d) (email_row P r) = true
    | None => True
    end
  ∧ match error r with
    | Some m => contains m (email_row P r) = true
    | None => True
    end.
Proof.
  split; [apply slack_pairs_attachment|].
  split; [by rewrite slack_pairs_attachment, teams_pairs_section|].
  apply email_row_contains.
Qed.

(** ** The run *)

Section Run.

Variable P : platform.
Variable cfg : config.

Lemma classify_well_formed (site : website) (now : datetime) (h : string)
    (p t : Z) :
  ∃ fetched,
    outcome (get_certificate_expiry P h p t) = inr fetched
    ∧ well_formed (classify cfg site now fetched).
Proof.
  rewrite get_certificate_expiry_outcome.
  destruct (outcome (retrieve_expiry P h p t)) as [e|d].
  - eexists; split; [done|].
    rewrite classify_failure by apply failure_message_nonempty.
    left; simpl.
    by rewrite bool_decide_eq_false_2 by apply failure_message_nonempty.
  - eexists; split; [done|].
    rewrite classify_success. right. by split; eexists.
Qed.

(** [check_all_certificates] returns, and every result is well formed. *)
Lemma as_completed_returns (completed : list (website * datetime))
    (results : list result) :
  Forall well_formed results →
  ∃ results',
    outcome (as_completed P cfg completed results) = inr results'
    ∧ Forall well_formed results'.
Proof.
  revert results.
  induction completed as [|[site now] rest IH]; intros results Hwf;
    cbn [as_completed].
  - by exists results.
  - destruct (classify_well_formed site now (site_hostname site)
                (default 443 (site_port site)) 10) as (fetched & Ho & Hc).
    rewrite outcome_bind, Ho. cbn [lift outcome snd].
    apply IH, Forall_app. split; [done|]. by constructor.
Qed.

(** The main thread of a check logs nothing: the fetches log in their
    worker threads. *)
Lemma as_completed_silent (completed : list (website * datetime))
    (results : list result) :
  trace (as_completed P cfg completed results) = [].
Proof.
  revert results.
  induction completed as [|[site now] rest IH]; intros results; [done|].
  cbn [as_completed]. rewrite trace_bind. cbn [lift trace fst app].
  destruct (outcome (get_certificate_expiry P _ _ _)); [done | apply IH].
Qed.

(** A pool without workers cannot be made; with workers, the check is the
    collecting loop, after what the workers logged. *)
Lemma check_all_certificates_outcome (completed : list (website * datetime))
    (results : list result) :
  outcome (check_all_certificates P cfg completed results)
  = if bool_decide (default 5 (max_workers cfg) ≤ 0)
    then inl (Exn ValueError "max_workers must be greater than 0")
    else outcome (as_completed P cfg completed results).
Proof.
  unfold check_all_certificates. case_bool_decide; [done|].
  by rewrite outcome_bind.
Qed.

Lemma check_all_certificates_trace (completed : list (website * datetime))
    (results : list result) :
  trace (check_all_certificates P cfg completed results)
  = if bool_decide (default 5 (max_workers cfg) ≤ 0) then []
    else interleave (thread_schedule P)
           (workers_log P (default [] (websites cfg))).
Proof.
  unfold check_all_certificates. case_bool_decide; [done|].
  rewrite trace_bind. cbn [emit_all trace outcome fst snd].
  by rewrite as_completed_silent, app_nil_r.
Qed.

Lemma display_result_returns (r : result) :
  well_formed r → outcome (display_result P r) = inr tt.
Proof.
  intros [Herr|[[e He] [d Hd]]]; unfold display_result.
  - by rewrite Herr.
  - rewrite He, Hd. destruct (truthy (error r)); [done|].
    simpl. by destruct (d <? 0).
Qed.

Lemma for_each_returns {A} (f : A → M unit) (l : list A) :
  Forall (λ x, outcome (f x) = inr tt) l → outcome (for_each f l) = inr tt.
Proof.
  induction 1 as [|x l Hx _ IH]; simpl; [done|].
  by rewrite outcome_bind, Hx.
Qed.

Lemma display_results_returns (now : datetime) (results : list result) :
  Forall well_formed results →
  outcome (display_results P now results) = inr tt.
Proof.
  intros Hwf. unfold display_results.
  rewrite !outcome_bind; simpl.
  rewrite for_each_returns; [done|].
  eapply Forall_impl; [done|]. apply display_result_returns.
Qed.

(** The exit status of a run is the one chosen from its results. *)
Lemma main_exits (quiet : bool) (completed : list (website * datetime))
    (now : datetime) (clock : nat → Z) (results : list result) :
  outcome (check_all_certificates P cfg completed []) = inr results →
  outcome (main P cfg quiet completed now clock) = inr (exit_code results).
Proof.
  intros Hres.
  destruct (as_completed_returns completed []) as (results' & Ho & Hwf);
    [constructor|].
  pose proof Hres as Hloop. rewrite check_all_certificates_outcome in Hloop.
  case_bool_decide; [done|]. rewrite Hloop in Ho. injection Ho as <-.
  unfold main.
  rewrite outcome_try_except_all, outcome_bind, Hres, outcome_bind.
  assert (outcome (when (negb quiet) (display_results P now results))
          = inr tt) as ->.
  { destruct quiet; [done|]. by apply display_results_returns. }
  by rewrite outcome_bind, send_alerts_never_raises.
Qed.

End Run.

Lemma length_filter_pos {A} (Q : A → Prop) `{!∀ x, Decision (Q x)}
    (l : list A) :
  (0 <? Z.of_nat (length (filter Q l))) = bool_decide (Exists Q l).
Proof.
  induction l as [|x l IH]; [done|].
  rewrite filter_cons. destruct (decide (Q x)) as [Hx|Hx].
  - rewrite bool_decide_eq_true_2 by by left. done.
  - rewrite IH. apply bool_decide_ext. rewrite Exists_cons. tauto.
Qed.

Lemma exit_code_cases (results : list result) :
  exit_code results
  = if bool_decide (Exists (λ r, status r = "CRITICAL") results) then 2
    else if bool_decide (Exists (λ r, status r = "ERROR") results) then 1
    else 0.
Proof. unfold exit_code. by rewrite !length_filter_pos. Qed.

(** C3. The exit status of the process is chosen from the results of the
    run: 2 as soon as one result is CRITICAL, also when others are ERROR;
    otherwise 1 as soon as one result is ERROR; otherwise 0, and so 0 when
    all results are OK. A run whose check returned these results exits with
    the status so chosen. *)
Theorem exit_code_by_severity (results : list result) :
  (Forall (λ r, status r = "OK") results → exit_code results = 0)
  ∧ (Exists (λ r, status r = "CRITICAL") results → exit_code results = 2)
  ∧ (Exists (λ r, status r = "ERROR") results →
     ¬ Exists (λ r, status r = "CRITICAL") results →
     exit_code results = 1)
  ∧ (¬ Exists (λ r, status r = "CRITICAL") results →
     ¬ Exists (λ r, status r = "ERROR") results →
     exit_code results = 0)
  ∧ (∀ P cfg quiet completed now clock,
       outcome (check_all_certificates P cfg completed []) = inr results →
       outcome (main P cfg quiet completed now clock)
       = inr (exit_code results)).
Proof.
  rewrite exit_code_cases. split_and!.
  - intros Hok. rewrite !bool_decide_eq_false_2; [done|..];
      intros (r & Hr & Hst)%Exists_exists;
      rewrite Forall_forall in Hok; specialize (Hok r Hr); congruence.
  - intros Hc. by rewrite bool_decide_eq_true_2.
  - intros He Hc.
    by rewrite bool_decide_eq_false_2, bool_decide_eq_true_2.
  - intros Hc He. by rewrite !bool_decide_eq_false_2.
  - intros P cfg quiet completed now clock Hres.
    rewrite <- exit_code_cases. by apply main_exits.
Qed.

Lemma exit_code_by_severity_witness :
  exit_code [Sample.healthy] = 0
  ∧ exit_code [Sample.healthy; Sample.unreachable] = 1
  ∧ exit_code [Sample.healthy; Sample.unreachable; Sample.expired] = 2
  ∧ outcome (main Sample.P Sample.cfg false Sample.completed
                  (Sample.at_day 740004 2) Sample.clock)
    = inr 2.
Proof.
  destruct (exit_code_by_severity [Sample.healthy]) as (Hok & _).
  destruct (exit_code_by_severity [Sample.healthy; Sample.unreachable])
    as (_ & _ & Herr & _).
  destruct (exit_code_by_severity
              [Sample.healthy; Sample.unreachable; Sample.expired])
    as (_ & Hcrit & _ & _ & Hmain).
  split_and!.
  - apply Hok. by repeat constructor.
  - apply Herr.
    + apply Exists_cons; right. by apply Exists_cons; left.
    + intros Hc. apply Exists_exists in Hc as (r & Hr & Hst).
      rewrite !elem_of_cons, elem_of_nil in Hr.
      by destruct Hr as [->|[->|[]]].
  - apply Hcrit.
    do 2 (apply Exists_cons; right). by apply Exists_cons; left.
  - rewrite (Hmain Sample.P Sample.cfg false Sample.completed); reflexivity.
Defined.


(** Without one, it raises, and the run ends on the handler of [main]. *)
Lemma main_without_workers (P : platform) (cfg : config) (quiet : bool)
    (completed : list (website * datetime)) (now : datetime)
    (clock : nat → Z) :
  default 5 (max_workers cfg) ≤ 0 →
  main P cfg quiet completed now clock
  = ([LogError "Unexpected error: max_workers must be greater than 0"],
     inr 1).
Proof.
  intros Hworkers. unfold main, check_all_certificates.
  by rewrite bool_decide_eq_true_2 by done.
Qed.

(** * Further properties *)

Lemma contains_refl (n : string) : contains n n = true.
Proof.
  rewrite contains_unfold.
  assert (String.prefix n n = true) as ->; [|done].
  induction n as [|c n IH]; [done|].
  simpl. by destruct (Ascii.ascii_dec c c).
Qed.

(** Looks for the needle in a concatenation, up to its last piece. *)
Ltac find_needle_end :=
  repeat first
    [ apply contains_refl | apply contains_here | apply contains_here3
    | apply contains_skip ].

(** ** The fetcher, step by step *)

Section FetcherSteps.

Variable P : platform.

(** The [try] block logs its one line and nothing else. *)
Lemma retrieve_expiry_trace (h : string) (p t : Z) :
  trace (retrieve_expiry P h p t)
  = [LogInfo ("Checking certificate for " +:+ h +:+ ":" +:+ str p)].
Proof.
  unfold retrieve_expiry.
  destruct (create_connection P h p t) as [e|s]; simpl; [done|].
  destruct (wrap_socket P s h) as [e|s']; simpl; [done|].
  destruct (getpeercert P s') as [e|[cert|]]; simpl; [done| |done].
  destruct (cert !! "notAfter") as [date|]; simpl; [|done].
  by destruct (strptime P date "%b %d %H:%M:%S %Y %Z").
Qed.

Lemma get_certificate_expiry_trace (h : string) (p t : Z) :
  trace (get_certificate_expiry P h p t)
  = LogInfo ("Checking certificate for " +:+ h +:+ ":" +:+ str p)
    :: match outcome (retrieve_expiry P h p t) with
       | inl e => [LogError (failure_message h e)]
       | inr _ => []
       end.
Proof.
  pose proof (retrieve_expiry_trace h p t) as Htr.
  unfold get_certificate_expiry, failure_message.
  destruct (retrieve_expiry P h p t) as [tr [[c m]|d]];
    unfold trace in Htr; simpl in Htr; subst tr; [|done].
  by destruct c.
Qed.

(** The outcome of the [try] block, stage by stage: the first call that
    raises decides, and the later ones are not made. *)
Lemma retrieve_expiry_outcome (h : string) (p t : Z) :
  outcome (retrieve_expiry P h p t)
  = match create_connection P h p t with
    | inl e => inl e
    | inr s =>
        match wrap_socket P s h with
        | inl e => inl e
        | inr s' =>
            match getpeercert P s' with
            | inl e => inl e
            | inr None =>
                inl (Exn TypeError "'NoneType' object is not subscriptable")
            | inr (Some cert) =>
                match cert !! "notAfter" with
                | None => inl (Exn KeyError "'notAfter'")
                | Some date => strptime P date "%b %d %H:%M:%S %Y %Z"
                end
            end
        end
    end.
Proof.
  unfold retrieve_expiry.
  destruct (create_connection P h p t) as [e|s]; simpl; [done|].
  destruct (wrap_socket P s h) as [e|s']; simpl; [done|].
  destruct (getpeercert P s') as [e|[cert|]]; simpl; [done| |done].
  destruct (cert !! "notAfter") as [date|]; simpl; [|done].
  by destruct (strptime P date "%b %d %H:%M:%S %Y %Z").
Qed.

End FetcherSteps.

(** X1. A fetch logs the line that announces it and, exactly when it
    fails, one error line; the text of that line is the error message that
    the fetch returns. *)
Theorem fetch_logs_what_it_returns (P : platform) (h : string) (p t : Z) :
  trace (get_certificate_expiry P h p t)
  = LogInfo ("Checking certificate for " +:+ h +:+ ":" +:+ str p)
    :: match outcome (get_certificate_expiry P h p t) with
       | inr (_, _, Some message) => [LogError message]
       | _ => []
       end.
Proof.
  rewrite get_certificate_expiry_trace, get_certificate_expiry_outcome.
  by destruct (outcome (retrieve_expiry P h p t)).
Qed.

(** X2. The clause that reports a failure is chosen by the class of the
    exception and its parents: a timeout and a DNS failure never reach the
    general clause although both are [OSError]s, every kind of [SSLError]
    is reported as an SSL error, and all the rest is an unexpected error.
    Each message names the host. *)
Theorem fetch_failure_by_class (P : platform) (h : string) (p t : Z)
    (e : exn) :
  outcome (retrieve_expiry P h p t) = inl e →
  ∃ message,
    outcome (get_certificate_expiry P h p t) = inr (h, None, Some message)
    ∧ contains h message = true
    ∧ (socket_timeout ∈ mro (exn_cls e) →
       message = "Connection timeout for " +:+ h)
    ∧ (socket_gaierror ∈ mro (exn_cls e) →
       message = "DNS resolution failed for " +:+ h)
    ∧ (SSLError ∈ mro (exn_cls e) →
       message = "SSL error for " +:+ h +:+ ": " +:+ exn_str e)
    ∧ (socket_timeout ∉ mro (exn_cls e) →
       socket_gaierror ∉ mro (exn_cls e) →
       SSLError ∉ mro (exn_cls e) →
       message = "Unexpected error for " +:+ h +:+ ": " +:+ exn_str e).
Proof.
  intros He. exists (failure_message h e).
  rewrite get_certificate_expiry_outcome, He. split; [done|].
  split.
  { unfold failure_message. repeat case_match; find_needle_end. }
  unfold failure_message, issubclass. destruct e as [c m]; simpl.
  split_and!; intros; destruct c;
    first
      [ by vm_compute
      | exfalso;
        match goal with
        | H : _ ∈ _ |- _ =>
            simpl in H;
            repeat (apply elem_of_cons in H as [?|H]; [discriminate|]);
            by apply elem_of_nil in H
        end
      | exfalso;
        match goal with
        | H : _ ∉ _ |- _ =>
            apply H; simpl;
            by repeat first
                 [ apply list_elem_of_here | apply list_elem_of_further ]
        end ].
Qed.

Lemma fetch_failure_by_class_witness :
  outcome (get_certificate_expiry Sample.P "badssl.example" 443 10)
  = inr ("badssl.example", None,
         Some "SSL error for badssl.example: certificate verify failed").
Proof.
  destruct (fetch_failure_by_class Sample.P "badssl.example" 443 10
              (Exn SSLCertVerificationError "certificate verify failed"))
    as (message & Ho & _ & _ & _ & Hssl & _); [reflexivity|].
  rewrite Ho, Hssl; [reflexivity|].
  simpl. apply list_elem_of_further, list_elem_of_here.
Defined.

(** X3. A host that answers with a certificate that cannot be read is an
    error of that host and no crash: a certificate without [notAfter], no
    certificate at all, and a date that does not parse each come back as
    an "Unexpected error" message for the host; a date that parses comes
    back as the expiry date. *)
Theorem fetch_unreadable_certificate (P : platform) (h : string) (p t : Z)
    (s s' : sock) :
  create_connection P h p t = inr s →
  wrap_socket P s h = inr s' →
  let fetched := outcome (get_certificate_expiry P h p t) in
  (getpeercert P s' = inr None →
   fetched
   = inr (h, None,
          Some ("Unexpected error for " +:+ h
                +:+ ": 'NoneType' object is not subscriptable")))
  ∧ (∀ cert,
       getpeercert P s' = inr (Some cert) →
       cert !! "notAfter" = None →
       fetched
       = inr (h, None,
              Some ("Unexpected error for " +:+ h +:+ ": 'notAfter'")))
  ∧ (∀ cert date m,
       getpeercert P s' = inr (Some cert) →
       cert !! "notAfter" = Some date →
       strptime P date "%b %d %H:%M:%S %Y %Z" = inl (Exn ValueError m) →
       fetched
       = inr (h, None, Some ("Unexpected error for " +:+ h +:+ ": " +:+ m)))
  ∧ (∀ cert date d,
       getpeercert P s' = inr (Some cert) →
       cert !! "notAfter" = Some date →
       strptime P date "%b %d %H:%M:%S %Y %Z" = inr d →
       fetched = inr (h, Some d, None)).
Proof.
  intros Hc Hw fetched. subst fetched.
  rewrite get_certificate_expiry_outcome, retrieve_expiry_outcome, Hc, Hw.
  split_and!.
  - by intros ->.
  - by intros cert -> ->.
  - by intros cert date m -> -> ->.
  - by intros cert date d -> -> ->.
Qed.

Lemma fetch_unreadable_certificate_witness :
  outcome (get_certificate_expiry Demo.P_no_date "ok.example" 443 10)
  = inr ("ok.example", None, Some "Unexpected error for ok.example: 'notAfter'")
  ∧ outcome (get_certificate_expiry Sample.P "ok.example" 443 10)
    = inr ("ok.example", Some (Sample.at_day 740000 0), None).
Proof.
  split.
  - destruct (fetch_unreadable_certificate Demo.P_no_date "ok.example" 443 10
                3%nat 3%nat) as (_ & Hkey & _); [reflexivity..|].
    apply (Hkey ∅); reflexivity.
  - destruct (fetch_unreadable_certificate Sample.P "ok.example" 443 10
                3%nat 3%nat) as (_ & _ & _ & Hok); [reflexivity..|].
    apply (Hok {[ "notAfter" := "Jan  1 00:00:00 2027 GMT" ]}
               "Jan  1 00:00:00 2027 GMT");
      reflexivity.
Defined.

(** ** The check as a whole *)

Section Check.

Variable P : platform.
Variable cfg : config.

Lemma as_completed_outcome (completed : list (website * datetime))
    (acc : list result) :
  outcome (as_completed P cfg completed acc)
  = inr (acc ++ (checked P cfg <$> completed)).
Proof.
  revert acc.
  induction completed as [|[site now] rest IH]; intros acc;
    cbn [as_completed].
  - by rewrite app_nil_r.
  - rewrite outcome_bind, get_certificate_expiry_outcome.
    unfold checked at 1; simpl.
    destruct (outcome (retrieve_expiry P _ _ _));
      by rewrite IH, <- app_assoc.
Qed.

(** What a check returns when it does: it does when the pool has a
    worker. *)
Lemma check_all_certificates_results (completed : list (website * datetime))
    (held results : list result) :
  outcome (check_all_certificates P cfg completed held) = inr results ↔
  0 < default 5 (max_workers cfg)
  ∧ results = held ++ (checked P cfg <$> completed).
Proof.
  rewrite check_all_certificates_outcome, as_completed_outcome.
  case_bool_decide; split.
  - done.
  - intros [? _]. lia.
  - intros [= <-]. split; [lia | done].
  - by intros [_ ->].
Qed.

Lemma checked_coherent (c : website * datetime) : coherent (checked P cfg c).
Proof.
  unfold checked, coherent.
  destruct (outcome (retrieve_expiry P _ _ _)) as [e|d].
  - pose proof (failure_message_nonempty (site_hostname c.1) e) as Hne.
    rewrite classify_failure by done. simpl.
    rewrite bool_decide_eq_false_2 by done.
    split_and!; try done; try (split; by eauto).
    repeat first [ apply list_elem_of_here | apply list_elem_of_further ].
  - rewrite classify_success. simpl.
    assert (∀ A, ¬ @is_Some A None) as Hnone by by intros A [? ?].
    split_and!; try done.
    + repeat case_match;
        repeat first [ apply list_elem_of_here | apply list_elem_of_further ].
    + split; [|by intros ?%Hnone]. by repeat case_match.
Qed.

Lemma checked_identity (c : website * datetime) :
  hostname (checked P cfg c) = site_hostname c.1
  ∧ port (checked P cfg c) = default 443 (site_port c.1).
Proof.
  unfold checked.
  destruct (outcome (retrieve_expiry P _ _ _)) as [e|d].
  - by rewrite classify_failure by apply failure_message_nonempty.
  - by rewrite classify_success.
Qed.

End Check.

(** X4. Every result that a check returns is coherent: its status is one
    of OK, WARNING, CRITICAL and ERROR; it is ERROR exactly when the result
    has an error message, which is then not empty; and the expiry date and
    the day count are both present when there is no message and both absent
    when there is one. The check returns when the pool has at least one
    worker, and raises ValueError when it is configured with none. *)
Theorem check_results_coherent (P : platform) (cfg : config)
    (completed : list (website * datetime)) :
  (∀ results,
     outcome (check_all_certificates P cfg completed []) = inr results →
     Forall coherent results)
  ∧ (0 < default 5 (max_workers cfg) →
     ∃ results,
       outcome (check_all_certificates P cfg completed []) = inr results)
  ∧ (default 5 (max_workers cfg) ≤ 0 →
     outcome (check_all_certificates P cfg completed [])
     = inl (Exn ValueError "max_workers must be greater than 0")).
Proof.
  split_and!.
  - intros results [_ ->]%check_all_certificates_results.
    apply Forall_fmap, Forall_true. intros c. apply checked_coherent.
  - intros Hworkers. eexists. by apply check_all_certificates_results.
  - intros Hworkers. rewrite check_all_certificates_outcome.
    by rewrite bool_decide_eq_true_2.
Qed.

Lemma check_results_coherent_witness :
  Forall coherent [Sample.healthy; Sample.unreachable]
  ∧ outcome (check_all_certificates Sample.P Demo.no_workers
               Sample.completed [])
    = inl (Exn ValueError "max_workers must be greater than 0").
Proof.
  split.
  - destruct (check_results_coherent Sample.P Sample.cfg
                [ (Sample.site "ok.example", Sample.at_day 739000 0);
                  (Sample.site "nodns.example", Sample.at_day 739000 0) ])
      as (Hco & _).
    apply Hco. reflexivity.
  - destruct (check_results_coherent Sample.P Demo.no_workers Sample.completed)
      as (_ & _ & Hnone).
    apply Hnone. simpl. lia.
Defined.

(** X5. A check that returns has built one result for each future, in the
    order in which the futures complete; the result has the host name of its
    site and the port of its site, 443 when the site names none. When the
    futures are those of the configured sites, the hosts of the results are
    the configured hosts, in some order. *)
Theorem check_results_follow_sites (P : platform) (cfg : config)
    (completed : list (website * datetime)) (results : list result) :
  outcome (check_all_certificates P cfg completed []) = inr results →
  length results = length completed
  ∧ hostname <$> results = (λ c, site_hostname c.1) <$> completed
  ∧ port <$> results = (λ c, default 443 (site_port c.1)) <$> completed
  ∧ (completed.*1 ≡ₚ default [] (websites cfg) →
     hostname <$> results ≡ₚ site_hostname <$> default [] (websites cfg)).
Proof.
  intros [_ ->]%check_all_certificates_results. cbn [app].
  assert (hostname <$> (checked P cfg <$> completed)
          = (λ c, site_hostname c.1) <$> completed) as Hhosts.
  { rewrite <- list_fmap_compose. apply list_fmap_ext.
    intros i c _. apply checked_identity. }
  split; [apply length_fmap|].
  split; [done|].
  split.
  - rewrite <- list_fmap_compose. apply list_fmap_ext.
    intros i c _. apply checked_identity.
  - intros Hsites. rewrite Hhosts, <- Hsites, <- list_fmap_compose. done.
Qed.

Lemma check_results_follow_sites_witness :
  hostname <$> [Sample.healthy; Sample.unreachable]
  = ["ok.example"; "nodns.example"]
  ∧ port <$> [Sample.healthy; Sample.unreachable] = [443; 443].
Proof.
  destruct (check_results_follow_sites Sample.P Sample.cfg
              [ (Sample.site "ok.example", Sample.at_day 739000 0);
                (Sample.site "nodns.example", Sample.at_day 739000 0) ]
              [Sample.healthy; Sample.unreachable])
    as (_ & Hhosts & Hports & _); [reflexivity|].
  by split.
Defined.

(** X6. A check that returns appends to the results that the checker
    already holds: none is dropped, changed or moved, so a second call on
    the same checker returns the results of both calls, and what it adds
    does not depend on what was held. With a pool of at least one worker, a
    check over two batches of futures gives the results of the first batch
    followed by those of the second. *)
Theorem check_appends (P : platform) (cfg : config)
    (first second : list (website * datetime)) (held : list result) :
  (∀ results,
     outcome (check_all_certificates P cfg first held) = inr results →
     ∃ added,
       results = held ++ added
       ∧ outcome (check_all_certificates P cfg first []) = inr added)
  ∧ (0 < default 5 (max_workers cfg) →
     ∃ r1 r2,
       outcome (check_all_certificates P cfg first []) = inr r1
       ∧ outcome (check_all_certificates P cfg second []) = inr r2
       ∧ outcome (check_all_certificates P cfg first held) = inr (held ++ r1)
       ∧ outcome (check_all_certificates P cfg second (held ++ r1))
         = inr (held ++ r1 ++ r2)
       ∧ outcome (check_all_certificates P cfg (first ++ second) held)
         = inr (held ++ r1 ++ r2)).
Proof.
  split.
  - intros results [Hworkers ->]%check_all_certificates_results.
    eexists. split; [done|]. by apply check_all_certificates_results.
  - intros Hworkers.
    exists (checked P cfg <$> first), (checked P cfg <$> second).
    split_and!; apply check_all_certificates_results; (split; [done|]);
      [done | done | done | by rewrite <- app_assoc
      | by rewrite fmap_app].
Qed.

Lemma check_appends_witness :
  outcome (check_all_certificates Sample.P Sample.cfg
             [(Sample.site "nodns.example", Sample.at_day 739000 0)]
             [Sample.healthy])
  = inr [Sample.healthy; Sample.unreachable]
  ∧ outcome (check_all_certificates Sample.P Sample.cfg
               ([(Sample.site "ok.example", Sample.at_day 739000 0)]
                ++ [(Sample.site "nodns.example", Sample.at_day 739000 0)])
               [])
    = inr [Sample.healthy; Sample.unreachable].
Proof.
  destruct (check_appends Sample.P Sample.cfg
              [(Sample.site "ok.example", Sample.at_day 739000 0)]
              [(Sample.site "nodns.example", Sample.at_day 739000 0)] [])
    as (_ & Hboth).
  destruct Hboth as (r1 & r2 & H1 & H2 & _ & Hsecond & Hall);
    [simpl; lia|].
  injection H1 as <-. injection H2 as <-. by split.
Defined.

(** X25. A configuration with [max_workers] at zero or below stops the run
    before anything is checked: the pool cannot be made, the check raises
    ValueError without a fetch and without a log line, whatever the sites,
    and the program logs "Unexpected error: max_workers must be greater than
    0", prints no report, sends no alert, and exits with 1, quiet or not. *)
Theorem check_needs_workers (P : platform) (cfg : config) (quiet : bool)
    (completed : list (website * datetime)) (held : list result)
    (now : datetime) (clock : nat → Z) :
  default 5 (max_workers cfg) ≤ 0 →
  check_all_certificates P cfg completed held
  = ([], inl (Exn ValueError "max_workers must be greater than 0"))
  ∧ main P cfg quiet completed now clock
    = ([LogError "Unexpected error: max_workers must be greater than 0"],
       inr 1).
Proof.
  intros Hworkers. split; [|by apply main_without_workers].
  unfold check_all_certificates. by rewrite bool_decide_eq_true_2.
Qed.

Lemma check_needs_workers_witness :
  main Sample.P Demo.no_workers false Sample.completed
       (Sample.at_day 740004 2) Sample.clock
  = ([LogError "Unexpected error: max_workers must be greater than 0"],
     inr 1).
Proof.
  destruct (check_needs_workers Sample.P Demo.no_workers false
              Sample.completed [] (Sample.at_day 740004 2) Sample.clock)
    as [_ Hmain]; [simpl; lia | exact Hmain].
Defined.

(** ** More on the classifier *)

(** X7. Nothing orders the two thresholds. With a warning threshold at or
    below the critical one, no certificate is ever WARNING: it is CRITICAL
    up to the critical threshold and OK above it. *)
Theorem inverted_thresholds_never_warn (cfg : config) (site : website)
    (now : datetime) (h : string) (e : datetime) :
  warningDays cfg ≤ criticalDays cfg →
  let r := classify cfg site now (h, Some e, None) in
  status r ≠ "WARNING"
  ∧ (days (sub e now) ≤ criticalDays cfg → status r = "CRITICAL")
  ∧ (criticalDays cfg < days (sub e now) → status r = "OK").
Proof.
  intros Hinv r. subst r. rewrite classify_success; cbn [status].
  destruct (Z.leb_spec (days (sub e now)) (criticalDays cfg));
    destruct (Z.leb_spec (days (sub e now)) (warningDays cfg));
    split_and!; intros; done || lia.
Qed.

Lemma inverted_thresholds_never_warn_witness :
  status (classify Demo.inverted (Sample.site "www.example")
            (Sample.at_day 739980 0)
            ("www.example", Some (Sample.at_day 740000 0), None))
  = "CRITICAL"
  ∧ status (classify Demo.inverted (Sample.site "www.example")
              (Sample.at_day 739969 0)
              ("www.example", Some (Sample.at_day 740000 0), None))
    = "OK".
Proof.
  split.
  - destruct (inverted_thresholds_never_warn Demo.inverted
                (Sample.site "www.example") (Sample.at_day 739980 0)
                "www.example" (Sample.at_day 740000 0)) as (_ & Hc & _);
      [by vm_compute|].
    apply Hc. by vm_compute.
  - destruct (inverted_thresholds_never_warn Demo.inverted
                (Sample.site "www.example") (Sample.at_day 739969 0)
                "www.example" (Sample.at_day 740000 0)) as (_ & _ & Hok);
      [by vm_compute|].
    apply Hok. by vm_compute.
Defined.

(** X8. Urgency follows the time that is left. Of two readings, the one with
    less time between the clock and the expiry date has the smaller day
    count and a status that is at least as urgent: a certificate never
    becomes less urgent as the clock moves on, and a later expiry date is
    never more urgent than an earlier one. *)
Theorem urgency_follows_time_left (cfg : config) (site1 site2 : website)
    (now1 now2 : datetime) (h1 h2 : string) (e1 e2 : datetime) :
  to_us e1 - to_us now1 ≤ to_us e2 - to_us now2 →
  let r1 := classify cfg site1 now1 (h1, Some e1, None) in
  let r2 := classify cfg site2 now2 (h2, Some e2, None) in
  days (sub e1 now1) ≤ days (sub e2 now2)
  ∧ severity (status r2) ≤ severity (status r1).
Proof.
  intros Hle r1 r2. subst r1 r2.
  assert (days (sub e1 now1) ≤ days (sub e2 now2)) as Hd.
  { rewrite !sub_days_floor. by apply Z.div_le_mono. }
  split; [done|]. rewrite !classify_success; cbn [status].
  destruct (Z.leb_spec (days (sub e1 now1)) (criticalDays cfg));
    destruct (Z.leb_spec (days (sub e1 now1)) (warningDays cfg));
    destruct (Z.leb_spec (days (sub e2 now2)) (criticalDays cfg));
    destruct (Z.leb_spec (days (sub e2 now2)) (warningDays cfg));
    (by vm_compute) || lia.
Qed.

Lemma urgency_follows_time_left_witness :
  severity (status (classify Sample.cfg (Sample.site "www.example")
                      (Sample.at_day 739980 0)
                      ("www.example", Some (Sample.at_day 740000 0), None)))
  ≤ severity (status (classify Sample.cfg (Sample.site "www.example")
                        (Sample.at_day 739995 0)
                        ("www.example", Some (Sample.at_day 740000 0), None))).
Proof.
  apply (urgency_follows_time_left Sample.cfg (Sample.site "www.example")
           (Sample.site "www.example")
           (Sample.at_day 739995 0) (Sample.at_day 739980 0)
           "www.example" "www.example"
           (Sample.at_day 740000 0) (Sample.at_day 740000 0)).
  by vm_compute.
Defined.

(** ** The console report *)

Section Console.

Variable P : platform.




Lemma outcome_emit_bind {A} (ev : event) (k : unit → M A) :
  outcome (emit ev ≫= k) = outcome (k tt).
Proof. by rewrite outcome_bind. Qed.




End Console.



(** Settles whether the expired line is among a few printed lines. *)
Ltac not_among H :=
  first
    [ by apply elem_of_nil in H
    | let H1 := fresh in
      let H2 := fresh in
      let Heq := fresh in
      apply elem_of_cons in H; destruct H as [H1|H2];
      [ injection H1; intros Heq; vm_compute in Heq; discriminate
      | not_among H2 ] ].

(** X10. The console prints the line CERTIFICATE HAS EXPIRED! for a result
    exactly when the result has no error, has an expiry date, and has a
    negative day count. A day count of zero is not expired, and a host with
    an error never gets the line. *)
Theorem expired_line_iff (P : platform) (r : result) :
  Print "⚠️  CERTIFICATE HAS EXPIRED!" ∈ trace (display_result P r)
  ↔ truthy (error r) = false
    ∧ is_Some (expiry_date r)
    ∧ ∃ d, days_until_expiry r = Some d ∧ d < 0.
Proof.
  unfold display_result.
  destruct (truthy (error r)) eqn:Herr; simpl.
  { split; [intros H; not_among H | by intros [? _]]. }
  destruct (expiry_date r) as [e|]; simpl.
  2: { split; [intros H; not_among H | by intros (_ & [? ?] & _)]. }
  destruct (days_until_expiry r) as [d|]; simpl.
  2: { split; [intros H; not_among H | by intros (_ & _ & ? & ? & _)]. }
  destruct (Z.ltb_spec d 0) as [Hneg|Hpos]; simpl.
  - split; [by eauto 6|]. intros _.
    do 4 apply list_elem_of_further. apply list_elem_of_here.
  - split; [intros H; not_among H|].
    intros (_ & _ & d' & [= <-] & ?). lia.
Qed.

Lemma expired_line_iff_witness :
  Print "⚠️  CERTIFICATE HAS EXPIRED!"
  ∈ trace (display_result Sample.P Sample.expired)
  ∧ Print "⚠️  CERTIFICATE HAS EXPIRED!"
    ∉ trace (display_result Sample.P Sample.healthy).
Proof.
  split.
  - apply (expired_line_iff Sample.P Sample.expired).
    split; [reflexivity|]. split; [by eexists|]. by exists (-5).
  - intros (_ & _ & d & [= <-] & Hneg)%(expired_line_iff Sample.P Sample.healthy).
    discriminate Hneg.
Defined.

(** ** Quiet runs *)



Section Quiet.

Variable P : platform.
Variable cfg : config.

Lemma get_certificate_expiry_logs (h : string) (p t : Z) :
  Forall (λ ev, is_log ev = true) (trace (get_certificate_expiry P h p t)).
Proof.
  rewrite get_certificate_expiry_trace.
  destruct (outcome (retrieve_expiry P h p t)); by repeat constructor.
Qed.






End Quiet.


(** ** What the worker threads log *)

Lemma concat_lookup_middle {A} (ls : list (list A)) (i : nat) (l : list A) :
  ls !! i = Some l →
  concat ls = concat (take i ls) ++ l ++ concat (drop (S i) ls).
Proof.
  intros Hi. rewrite <- (take_drop_middle ls i l Hi) at 1.
  by rewrite concat_app, concat_cons.
Qed.

Lemma concat_insert_middle {A} (ls : list (list A)) (i : nat)
    (l l' : list A) :
  ls !! i = Some l →
  concat (<[i := l']> ls) = concat (take i ls) ++ l' ++ concat (drop (S i) ls).
Proof.
  intros Hi. rewrite insert_take_drop by by eapply lookup_lt_Some.
  by rewrite concat_app, concat_cons.
Qed.

(** An interleaving loses nothing and adds nothing. *)
Lemma interleave_perm (schedule : list nat) (logs : list (list event)) :
  interleave schedule logs ≡ₚ concat logs.
Proof.
  revert logs. induction schedule as [|i rest IH]; intros logs; [done|].
  simpl. destruct (logs !! i) as [[|ev evs]|] eqn:Hi; [apply IH| |apply IH].
  rewrite IH, (concat_insert_middle logs i (ev :: evs)) by done.
  rewrite (concat_lookup_middle logs i (ev :: evs)) by done.
  apply Permutation_middle.
Qed.

(** It keeps the lines of each thread in their order. *)
Lemma interleave_sublist (schedule : list nat) (logs : list (list event))
    (j : nat) (evs : list event) :
  logs !! j = Some evs → evs `sublist_of` interleave schedule logs.
Proof.
  revert logs evs.
  induction schedule as [|i rest IH]; intros logs evs Hj.
  - simpl. rewrite (concat_lookup_middle logs j evs) by done.
    apply sublist_inserts_l, sublist_inserts_r. done.
  - simpl. destruct (logs !! i) as [[|ev evs']|] eqn:Hi; [by apply IH| |by apply IH].
    destruct (decide (i = j)) as [->|Hne].
    + rewrite Hj in Hi. injection Hi as ->.
      apply sublist_skip, IH.
      apply list_lookup_insert_eq. by eapply lookup_lt_Some.
    + apply sublist_cons, IH. by rewrite list_lookup_insert_ne.
Qed.

(** X26. The log of a check is the log of its worker threads, one fetch for
    each configured site, whatever the order in which the threads take
    turns: it has the lines of every fetch and no other line, the lines of
    one fetch come in their order, and so every configured site has its
    line "Checking certificate for host:port", with port 443 when the site
    names none. Nothing but log lines is emitted. When no thread is given a
    turn before the others are done, the log is that of the fetches one
    after the other, in the order of the configuration. *)
Theorem check_log_interleaves (P : platform) (cfg : config)
    (completed : list (website * datetime)) (held : list result) :
  0 < default 5 (max_workers cfg) →
  let log := trace (check_all_certificates P cfg completed held) in
  let sites := default [] (websites cfg) in
  let fetch_log site :=
    trace (get_certificate_expiry P (site_hostname site)
             (default 443 (site_port site)) 10) in
  log ≡ₚ concat (fetch_log <$> sites)
  ∧ (∀ site, site ∈ sites → fetch_log site `sublist_of` log)
  ∧ (∀ site, site ∈ sites →
       LogInfo ("Checking certificate for " +:+ site_hostname site +:+ ":"
                +:+ str (default 443 (site_port site))) ∈ log)
  ∧ Forall (λ ev, is_log ev = true) log
  ∧ (thread_schedule P = [] → log = concat (fetch_log <$> sites)).
Proof.
  intros Hworkers log sites fetch_log. subst log.
  rewrite check_all_certificates_trace, bool_decide_eq_false_2 by lia.
  fold sites. change (workers_log P sites) with (fetch_log <$> sites).
  assert (∀ site, site ∈ sites →
            fetch_log site
            `sublist_of` interleave (thread_schedule P) (fetch_log <$> sites))
    as Hsub.
  { intros site (j & Hj)%list_elem_of_lookup_1.
    apply (interleave_sublist _ _ j). by rewrite list_lookup_fmap, Hj. }
  split_and!.
  - apply interleave_perm.
  - done.
  - intros site Hsite. eapply elem_of_sublist; [|by apply Hsub].
    unfold fetch_log. rewrite get_certificate_expiry_trace.
    apply list_elem_of_here.
  - apply Forall_interleave, Forall_fmap, Forall_true.
    intros site. apply get_certificate_expiry_logs.
  - by intros ->.
Qed.

Lemma check_log_interleaves_witness :
  trace (check_all_certificates Demo.P Sample.cfg Sample.completed [])
  ≡ₚ [ LogInfo "Checking certificate for ok.example:443";
       LogInfo "Checking certificate for nodns.example:443";
       LogError "DNS resolution failed for nodns.example";
       LogInfo "Checking certificate for exp.example:443" ]
  ∧ LogInfo "Checking certificate for exp.example:443"
    ∈ trace (check_all_certificates Demo.P Sample.cfg Sample.completed []).
Proof.
  destruct (check_log_interleaves Demo.P Sample.cfg Sample.completed [])
    as (Hperm & _ & Hline & _); [simpl; lia|].
  split; [exact Hperm|].
  apply (Hline (Sample.site "exp.example")).
  do 2 apply list_elem_of_further. apply list_elem_of_here.
Defined.

(** ** Exit status and alerts *)




(** X13. The order in which the futures complete does not matter to what
    follows: results in another order give the same exit status, and the
    same results to alert about, in that other order. *)
Theorem completion_order_is_immaterial (results results' : list result) :
  results ≡ₚ results' →
  exit_code results = exit_code results'
  ∧ alert_results results ≡ₚ alert_results results'.
Proof.
  intros Hperm. split.
  - rewrite !exit_code_cases.
    assert (∀ s, Exists (λ r, status r = s) results
                 ↔ Exists (λ r, status r = s) results') as Hex.
    { intros s. rewrite !Exists_exists.
      by setoid_rewrite Hperm. }
    by rewrite !(bool_decide_ext _ _ (Hex _)).
  - unfold alert_results. by rewrite Hperm.
Qed.

Lemma completion_order_is_immaterial_witness :
  exit_code [Sample.expired; Sample.unreachable; Sample.healthy]
  = exit_code [Sample.healthy; Sample.unreachable; Sample.expired].
Proof.
  apply completion_order_is_immaterial.
  exact (Permutation_rev
           [Sample.expired; Sample.unreachable; Sample.healthy]).
Defined.

(** ** The channels, one by one *)

Section Channels.

Variable P : platform.

Lemma _send_email_alert_no_post (ar : list result) (ec : email_config) :
  Forall (λ ev, is_post ev = false) (trace (_send_email_alert P ar ec)).
Proof. unfold _send_email_alert. step_trace; done. Qed.

Lemma _send_webhook_alert_no_smtp (clock : nat → Z) (ar : list result)
    (wc : webhook_config) :
  Forall (λ ev, is_smtp ev = false)
         (trace (_send_webhook_alert P clock ar wc)).
Proof.
  unfold _send_webhook_alert. step_trace; [|done].
  repeat case_match; step_trace; done.
Qed.

(** The run of a webhook that has its URL and a type that the program
    knows: the post, then one line of log. *)
Lemma _send_webhook_alert_run (clock : nat → Z) (ar : list result)
    (wc : webhook_config) (url : string) :
  webhook_url wc = Some url →
  default "slack" (webhook_type wc) ∈ ["slack"; "teams"] →
  let json := webhook_json clock ar wc in
  _send_webhook_alert P clock ar wc
  = ([ HttpPost url json 10;
       match requests_post P url json 10 with
       | inl e => LogError ("Failed to send webhook alert: " +:+ exn_str e)
       | inr status_code =>
           match raise_for_status P status_code with
           | Some e =>
               LogError ("Failed to send webhook alert: " +:+ exn_str e)
           | None =>
               LogInfo (capitalize (default "slack" (webhook_type wc))
                        +:+ " webhook alert sent successfully")
           end
       end ], inr tt).
Proof.
  intros Hurl Hty json. subst json.
  unfold _send_webhook_alert, webhook_json. rewrite Hurl.
  unfold getitem. rewrite bind_ret_l.
  rewrite !elem_of_cons, elem_of_nil in Hty.
  case_bool_decide as Hslack.
  - simpl. destruct (requests_post P url _ 10) as [e|code]; simpl;
      [by rewrite issubclass_Exception|].
    destruct (raise_for_status P code); simpl; [|done].
    by rewrite issubclass_Exception.
  - rewrite bool_decide_eq_true_2 by by destruct Hty as [?|[?|[]]].
    simpl. destruct (requests_post P url _ 10) as [e|code]; simpl;
      [by rewrite issubclass_Exception|].
    destruct (raise_for_status P code); simpl; [|done].
    by rewrite issubclass_Exception.
Qed.

End Channels.

(** X14. Alerts are opt-in twice over. A run of [send_alerts] reaches out
    only when the configuration has an alerts section whose [enabled] is
    true and some result is not OK; it talks to the mail server only when
    the email section is there with its own [enabled] true, and posts only
    when the webhook section is there with its own [enabled] true. A
    missing section or a missing [enabled] key switches the channel off. *)
Theorem channels_are_opt_in (P : platform) (cfg : config) (clock : nat → Z)
    (results : list result) (ev : event) :
  ev ∈ trace (send_alerts P cfg clock results) →
  is_send ev = true →
  ∃ ac,
    alerts cfg = Some ac
    ∧ alerts_enabled ac = Some true
    ∧ alert_results results ≠ []
    ∧ (is_smtp ev = true →
       ∃ ec, alerts_email ac = Some ec ∧ email_enabled ec = Some true)
    ∧ (is_post ev = true →
       ∃ wc, alerts_webhook ac = Some wc ∧ webhook_enabled wc = Some true).
Proof.
  intros Hev Hsend.
  destruct (default false (alerts_enabled (default no_alerts (alerts cfg))))
    eqn:Hen.
  2: { rewrite send_alerts_disabled in Hev by done.
       apply list_elem_of_singleton in Hev as ->. done. }
  destruct (alert_results results) as [|r ar] eqn:Har.
  { rewrite send_alerts_nothing in Hev by done.
    apply list_elem_of_singleton in Hev as ->. done. }
  destruct (alerts cfg) as [ac|] eqn:Hac; [|done]. simpl in Hen.
  destruct (alerts_enabled ac) as [[]|] eqn:Hon; try done.
  exists ac. split_and!; try done.
  all: destruct (send_alerts_channels P cfg clock results ac) as [_ Htr];
    [done | by rewrite Hon | by rewrite Har |];
    rewrite Htr, Har in Hev; apply elem_of_app in Hev as [Hev|Hev].
  - intros _. unfold email_channel in Hev.
    destruct (alerts_email ac) as [ec|]; [|by apply elem_of_nil in Hev].
    destruct (email_enabled ec) as [[]|] eqn:Hee;
      try by apply elem_of_nil in Hev.
    by exists ec.
  - intros Hsmtp. unfold webhook_channel in Hev.
    destruct (alerts_webhook ac) as [wc|]; [|by apply elem_of_nil in Hev].
    destruct (default false (webhook_enabled wc));
      [|by apply elem_of_nil in Hev].
    pose proof (_send_webhook_alert_no_smtp P clock (r :: ar) wc) as Hno.
    rewrite Forall_forall in Hno. specialize (Hno ev Hev). congruence.
  - intros Hpost. unfold email_channel in Hev.
    destruct (alerts_email ac) as [ec|]; [|by apply elem_of_nil in Hev].
    destruct (default false (email_enabled ec));
      [|by apply elem_of_nil in Hev].
    pose proof (_send_email_alert_no_post P (r :: ar) ec) as Hno.
    rewrite Forall_forall in Hno. specialize (Hno ev Hev). congruence.
  - intros _. unfold webhook_channel in Hev.
    destruct (alerts_webhook ac) as [wc|]; [|by apply elem_of_nil in Hev].
    destruct (webhook_enabled wc) as [[]|] eqn:Hwe;
      try by apply elem_of_nil in Hev.
    by exists wc.
Qed.

Lemma channels_are_opt_in_witness :
  ∃ ac,
    alerts Sample.cfg = Some ac
    ∧ alerts_enabled ac = Some true
    ∧ alert_results [Sample.unreachable] ≠ []
    ∧ ∃ ec, alerts_email ac = Some ec ∧ email_enabled ec = Some true.
Proof.
  destruct (channels_are_opt_in Sample.P Sample.cfg Sample.clock
              [Sample.unreachable] (SmtpConnect "smtp.example.org" 587))
    as (ac & Hac & Hon & Hne & Hsmtp & _).
  - apply list_elem_of_here.
  - reflexivity.
  - exists ac. split_and!; [done..|]. by apply Hsmtp.
Defined.

(** X15. A webhook that cannot be used is logged and left alone. Without a
    [url] key the send stops on the missing key, and with a type other
    than [slack] and [teams] it stops on the type; either way one error
    line is logged, nothing is posted, and the send returns. *)
Theorem webhook_unusable (P : platform) (clock : nat → Z)
    (ar : list result) (wc : webhook_config) :
  (webhook_url wc = None →
   _send_webhook_alert P clock ar wc
   = ([LogError "Failed to send webhook alert: 'url'"], inr tt))
  ∧ (∀ url,
       webhook_url wc = Some url →
       default "slack" (webhook_type wc) ∉ ["slack"; "teams"] →
       _send_webhook_alert P clock ar wc
       = ([LogError ("Unsupported webhook type: "
                     +:+ default "slack" (webhook_type wc))], inr tt)).
Proof.
  unfold _send_webhook_alert. split.
  - by intros ->.
  - intros url -> Hty. rewrite !not_elem_of_cons in Hty.
    destruct Hty as (? & ? & _).
    unfold getitem. rewrite bind_ret_l.
    by rewrite !bool_decide_eq_false_2 by done.
Qed.

Lemma webhook_unusable_witness :
  _send_webhook_alert Sample.P Sample.clock [Sample.unreachable] Demo.discord
  = ([LogError "Unsupported webhook type: discord"], inr tt)
  ∧ _send_webhook_alert Sample.P Sample.clock [Sample.unreachable] no_webhook
    = ([LogError "Failed to send webhook alert: 'url'"], inr tt).
Proof.
  destruct (webhook_unusable Sample.P Sample.clock [Sample.unreachable]
              Demo.discord) as [_ Htype].
  destruct (webhook_unusable Sample.P Sample.clock [Sample.unreachable]
              no_webhook) as [Hurl _].
  split.
  - apply (Htype "https://hooks.example.org/D0"); [reflexivity|].
    intros H. rewrite !elem_of_cons, elem_of_nil in H.
    by destruct H as [?|[?|[]]].
  - apply Hurl. reflexivity.
Defined.

(** X16. A webhook with a URL and a known type makes one post, with a
    timeout of 10 seconds: the Slack payload when the type is [slack] or
    missing, the Teams payload when it is [teams]. One line of log follows:
    the success line when the post went through and the response was not
    an error, and the reason of the failure otherwise. *)
Theorem webhook_posts_once (P : platform) (clock : nat → Z)
    (ar : list result) (wc : webhook_config) (url : string) :
  webhook_url wc = Some url →
  default "slack" (webhook_type wc) ∈ ["slack"; "teams"] →
  let run := _send_webhook_alert P clock ar wc in
  let json := webhook_json clock ar wc in
  outcome run = inr tt
  ∧ filter (λ ev, is_post ev = true) (trace run) = [HttpPost url json 10]
  ∧ (webhook_type wc = None →
     json = SlackPayload (_create_slack_payload clock ar))
  ∧ (webhook_type wc = Some "teams" →
     json = TeamsPayload (_create_teams_payload ar))
  ∧ (LogInfo (capitalize (default "slack" (webhook_type wc))
              +:+ " webhook alert sent successfully") ∈ trace run
     ↔ ∃ status_code,
         requests_post P url json 10 = inr status_code
         ∧ raise_for_status P status_code = None)
  ∧ (∀ e, requests_post P url json 10 = inl e →
          trace run
          = [ HttpPost url json 10;
              LogError ("Failed to send webhook alert: " +:+ exn_str e) ])
  ∧ (∀ status_code e,
       requests_post P url json 10 = inr status_code →
       raise_for_status P status_code = Some e →
       trace run
       = [ HttpPost url json 10;
           LogError ("Failed to send webhook alert: " +:+ exn_str e) ]).
Proof.
  intros Hurl Hty run json. subst run json.
  rewrite (_send_webhook_alert_run P clock ar wc url Hurl Hty).
  unfold trace, outcome; simpl.
  split; [done|]. split.
  { rewrite filter_cons_True by done.
    rewrite filter_cons_False; [done|]. by repeat case_match. }
  split; [by unfold webhook_json; intros ->|].
  split; [by unfold webhook_json; intros ->|].
  split; [|split].
  - split.
    + intros H. apply elem_of_cons in H as [?|H]; [done|].
      apply list_elem_of_singleton in H.
      destruct (requests_post P url _ 10) as [e|code]; [done|].
      destruct (raise_for_status P code) eqn:Hst; [done|]. by exists code.
    + intros (code & -> & ->). apply list_elem_of_further, list_elem_of_here.
  - by intros e ->.
  - by intros code e -> ->.
Qed.

Lemma webhook_posts_once_witness :
  trace (_send_webhook_alert Demo.P_no_date Sample.clock [Sample.unreachable]
           Demo.slack)
  = [ HttpPost "https://hooks.example.org/S0"
        (SlackPayload (_create_slack_payload Sample.clock [Sample.unreachable]))
        10;
      LogError
        "Failed to send webhook alert: 503 Server Error: Service Unavailable" ].
Proof.
  destruct (webhook_posts_once Demo.P_no_date Sample.clock
              [Sample.unreachable] Demo.slack "https://hooks.example.org/S0")
    as (_ & _ & _ & _ & _ & _ & Hstatus).
  - reflexivity.
  - apply list_elem_of_here.
  - apply (Hstatus 503
             (Exn HTTPError "503 Server Error: Service Unavailable"));
      reflexivity.
Defined.

(** X17. An email section with a missing address or server is logged and
    left alone: without [from], [to], [smtp_server] or [smtp_port] the
    send stops on the first key that is missing, in that order, logs it,
    opens no connection and returns. *)
Theorem email_missing_key (P : platform) (ar : list result)
    (ec : email_config) :
  let run := _send_email_alert P ar ec in
  let stops_on key :=
    run = ([LogError ("Failed to send email alert: '" +:+ key +:+ "'")],
           inr tt) in
  (email_from ec = None → stops_on "from")
  ∧ (is_Some (email_from ec) → email_to ec = None → stops_on "to")
  ∧ (is_Some (email_from ec) → is_Some (email_to ec) →
     smtp_server ec = None → stops_on "smtp_server")
  ∧ (is_Some (email_from ec) → is_Some (email_to ec) →
     is_Some (smtp_server ec) → smtp_port ec = None → stops_on "smtp_port").
Proof.
  intros run stops_on. subst run stops_on. unfold _send_email_alert.
  split_and!.
  - by intros ->.
  - by intros [? ->] ->.
  - by intros [? ->] [? ->] ->.
  - by intros [? ->] [? ->] [? ->] ->.
Qed.

Lemma email_missing_key_witness :
  _send_email_alert Sample.P [Sample.unreachable] no_email
  = ([LogError "Failed to send email alert: 'from'"], inr tt).
Proof.
  destruct (email_missing_key Sample.P [Sample.unreachable] no_email)
    as (Hfrom & _).
  by apply Hfrom.
Defined.

(** Settles a statement about the events of a run that is written out. *)
Ltac settle_events :=
  repeat match goal with
    | |- _ ∧ _ => split
    | |- _ ↔ _ => split
    | |- ∀ _, _ => intro
    | H : _ ∧ _ |- _ => destruct H
    | H : _ ∈ [] |- _ => by apply elem_of_nil in H
    | H : _ ∈ _ :: _ |- _ =>
        apply elem_of_cons in H; destruct H as [H|H];
        [ try discriminate H; try (injection H as ?; subst) |]
    | |- _ ∈ _ =>
        by repeat first [ apply list_elem_of_here | apply list_elem_of_further ]
    end;
  try done; try congruence.

(** Takes the next call to the platform: it raises, or it returns. *)
Ltac next_call :=
  match goal with
  | |- context [lift_unit ?c] =>
      lazymatch c with
      | Some _ => fail
      | None => fail
      | _ => destruct c eqn:?
      end
  end; simpl; rewrite ?issubclass_Exception; simpl.

(** X18. With its four keys, the email send goes through the mail server
    in a fixed order and stops at the first step that fails. It connects
    first. It upgrades the connection with STARTTLS unless [use_tls] is
    false, also when the key is missing. It logs in only with a user name
    and a password that are both present and not empty. It hands over the
    message, with the configured subject or the default one, the sender,
    the recipients joined by commas and the HTML body of the results, only
    after all of that succeeded. Once connected, it always closes the
    session with QUIT, whatever failed in between. It logs success only
    when the server took the message and the session closed without error:
    when QUIT fails, the send is logged as failed with the error of QUIT,
    also when the message was handed over. *)
Theorem email_send_is_guarded (P : platform) (ar : list result)
    (ec : email_config) (from server : string) (to : list string)
    (port : Z) :
  email_from ec = Some from →
  email_to ec = Some to →
  smtp_server ec = Some server →
  smtp_port ec = Some port →
  let run := _send_email_alert P ar ec in
  let msg := email_message P ar ec from to in
  outcome run = inr tt
  ∧ head (trace run) = Some (SmtpConnect server port)
  ∧ (SmtpStartTls ∈ trace run
     ↔ smtp_connect P server port = None ∧ use_tls ec ≠ Some false)
  ∧ (∀ u p, SmtpLogin u p ∈ trace run →
            username ec = Some u ∧ password ec = Some p ∧ u ≠ "" ∧ p ≠ "")
  ∧ (∀ m, SmtpSendMessage m ∈ trace run →
          m = msg
          ∧ smtp_connect P server port = None
          ∧ (use_tls ec ≠ Some false → smtp_starttls P = None)
          ∧ (∀ u p, username ec = Some u → password ec = Some p →
                    u ≠ "" → p ≠ "" → smtp_login P u p = None))
  ∧ (SmtpQuit ∈ trace run ↔ smtp_connect P server port = None)
  ∧ (LogInfo "Email alert sent successfully" ∈ trace run
     ↔ SmtpSendMessage msg ∈ trace run
       ∧ smtp_send_message P msg = None
       ∧ smtp_quit P = None)
  ∧ (∀ e, smtp_connect P server port = None → smtp_quit P = Some e →
          last (trace run)
          = Some (LogError ("Failed to send email alert: " +:+ exn_str e))).
Proof.
  intros Hfrom Hto Hserver Hport run msg. subst run msg.
  split; [apply _send_email_alert_never_raises|].
  unfold _send_email_alert, email_message.
  rewrite Hfrom, Hto, Hserver, Hport. unfold getitem. rewrite !bind_ret_l.
  set (msg := {| msg_Subject := _; msg_From := _; msg_To := _;
                 msg_html := _ |}).
  destruct (use_tls ec) as [[|]|] eqn:Htls;
    destruct (username ec) as [user|] eqn:Huser;
    destruct (password ec) as [pass|] eqn:Hpass;
    unfold truthy; repeat case_bool_decide; simpl;
    repeat next_call; unfold trace; simpl; settle_events.
Qed.

Lemma email_send_is_guarded_witness :
  head (trace (_send_email_alert Demo.P [Sample.unreachable] Demo.email))
  = Some (SmtpConnect "smtp.example.org" 587)
  ∧ SmtpStartTls
    ∈ trace (_send_email_alert Demo.P [Sample.unreachable] Demo.email)
  ∧ SmtpQuit
    ∈ trace (_send_email_alert Demo.P [Sample.unreachable] Demo.email)
  ∧ LogInfo "Email alert sent successfully"
    ∈ trace (_send_email_alert Demo.P [Sample.unreachable] Demo.email)
  ∧ last (trace (_send_email_alert Demo.P_bad_quit [Sample.unreachable]
                   Demo.email))
    = Some (LogError ("Failed to send email alert: "
                      +:+ "(421, b'Service not available')")).
Proof.
  destruct (email_send_is_guarded Demo.P [Sample.unreachable] Demo.email
              "certs@example.org" "smtp.example.org"
              ["ops@example.org"; "sec@example.org"] 587
              eq_refl eq_refl eq_refl eq_refl)
    as (_ & Hhead & Htls & _ & _ & Hquit & Hsent & _).
  destruct (email_send_is_guarded Demo.P_bad_quit [Sample.unreachable]
              Demo.email "certs@example.org" "smtp.example.org"
              ["ops@example.org"; "sec@example.org"] 587
              eq_refl eq_refl eq_refl eq_refl)
    as (_ & _ & _ & _ & _ & _ & _ & Hfailed).
  split; [exact Hhead|]. split_and!.
  - apply Htls. split; [reflexivity | discriminate].
  - by apply Hquit.
  - apply Hsent. split; [|by split].
    do 3 apply list_elem_of_further. apply list_elem_of_here.
  - by apply (Hfailed (Exn SMTPResponseException
                         "(421, b'Service not available')")).
Defined.

(** ** The alert message *)

Lemma append_nil_r (s : string) : s +:+ "" = s.
Proof.
  induction s as [|c s IH]; [done|]. by rewrite append_cons, IH.
Qed.

Lemma concat_str_cons (s : string) (l : list string) :
  concat_str (s :: l) = s +:+ concat_str l.
Proof. done. Qed.

Lemma foldl_append {A} (f : A → string) (init : string) (l : list A) :
  foldl (λ message x, message +:+ f x) init l
  = init +:+ concat_str (f <$> l).
Proof.
  revert init. induction l as [|x l IH]; intros init.
  - by rewrite append_nil_r.
  - rewrite fmap_cons, concat_str_cons, append_assoc. apply IH.
Qed.

Lemma concat_str_app (l1 l2 : list string) :
  concat_str (l1 ++ l2) = concat_str l1 +:+ concat_str l2.
Proof.
  induction l1 as [|s l1 IH]; [done|].
  rewrite <- app_comm_cons, !concat_str_cons, IH. apply append_assoc.
Qed.

(** X19. The email body is the heading of the table, one row for each
    result in the order of the results, and the closing of the table; with
    no result it is the empty table. Every result that is passed in has its
    row in the body. Any format other than [email] gives the plain text
    form: its title and one entry for each result. *)
Theorem alert_message_structure (P : platform) (results : list result)
    (format_type : string) :
  _create_alert_message P results "email"
  = email_header +:+ concat_str (email_row P <$> results) +:+ email_footer
  ∧ _create_alert_message P [] "email" = email_header +:+ email_footer
  ∧ (∀ r, r ∈ results →
          contains (email_row P r) (_create_alert_message P results "email")
          = true)
  ∧ (format_type ≠ "email" →
     _create_alert_message P results format_type
     = "SSL Certificate Alert" +:+ nl +:+ nl
       +:+ concat_str (text_entry <$> results)).
Proof.
  assert (_create_alert_message P results "email"
          = email_header +:+ concat_str (email_row P <$> results)
            +:+ email_footer) as Hemail.
  { unfold _create_alert_message. rewrite bool_decide_eq_true_2 by done.
    by rewrite foldl_append, <- append_assoc. }
  split; [done|]. split; [done|]. split.
  - intros r (l1 & l2 & ->)%list_elem_of_split.
    rewrite Hemail, fmap_app, fmap_cons, concat_str_app, concat_str_cons.
    rewrite <- !append_assoc. find_needle.
  - intros Hfmt. unfold _create_alert_message.
    rewrite bool_decide_eq_false_2 by done.
    by rewrite foldl_append, <- !append_assoc.
Qed.

Lemma alert_message_structure_witness :
  _create_alert_message Sample.P [Sample.expired] "text"
  = "SSL Certificate Alert" +:+ nl +:+ nl
    +:+ "• exp.example:443 - CRITICAL" +:+ nl
    +:+ "  Days until expiry: -5" +:+ nl.
Proof.
  destruct (alert_message_structure Sample.P [Sample.expired] "text")
    as (_ & _ & _ & Htext).
  rewrite Htext; [reflexivity | discriminate].
Defined.

(** X20. The email row writes a value that is missing as the word None.
    A result without a day count has None in the cell after its status,
    and a result without an error message has None in its last cell; the
    texts N/A and "Certificate expiring soon" that the code names for these
    two cells are not what is written. N/A is written in the date cell of a
    result without an expiry date. *)
Theorem email_row_writes_None (P : platform) (r : result) :
  (days_until_expiry r = None →
   contains ("</td>
                    <td>" +:+ "None" +:+ "</td>
                    <td>") (email_row P r) = true)
  ∧ (error r = None →
     contains "<td>None</td>
                </tr>" (email_row P r) = true)
  ∧ (expiry_date r = None →
     contains ("</td>
                    <td>" +:+ "N/A" +:+ "</td>
                    <td>") (email_row P r) = true).
Proof.
  unfold email_row, get_present. split_and!.
  - intros ->. unfold fmt_int. find_needle.
  - intros ->. unfold fmt_str.
    repeat first [ by vm_compute | apply contains_skip ].
  - intros ->. find_needle.
Qed.

Lemma email_row_writes_None_witness :
  contains "<td>None</td>
                </tr>" (email_row Sample.P Sample.expired) = true
  ∧ contains ("</td>
                    <td>" +:+ "None" +:+ "</td>
                    <td>") (email_row Sample.P Sample.unreachable) = true.
Proof.
  destruct (email_row_writes_None Sample.P Sample.expired) as (_ & Herr & _).
  destruct (email_row_writes_None Sample.P Sample.unreachable) as (Hdays & _).
  split; [apply Herr | apply Hdays]; reflexivity.
Defined.

(** X21. The fallback colours are never used for an alert. A result that
    the alert pipeline keeps is red ([danger]) in Slack when it is CRITICAL
    or ERROR and amber ([warning]) when it is WARNING, never grey; its
    status in the email row has one of the three colours of the table,
    never black. *)
Theorem alert_colours (P : platform) (now_ts : Z) (results : list result)
    (r : result) :
  r ∈ alert_results results →
  Slack.color (slack_attachment now_ts r) ∈ ["danger"; "warning"]
  ∧ (Slack.color (slack_attachment now_ts r) = "warning"
     ↔ status r = "WARNING")
  ∧ ∃ colour,
      colour ∈ ["#ff0000"; "#ff9900"; "#cc0000"]
      ∧ contains ("color: " +:+ colour +:+ "; font-weight: bold;")
                 (email_row P r) = true.
Proof.
  intros [Hst _]%list_elem_of_filter.
  unfold slack_attachment, email_row; simpl.
  rewrite !elem_of_cons, elem_of_nil in Hst.
  destruct Hst as [->|[->|[->|[]]]]; simpl; split_and!;
    try (by repeat first [ apply list_elem_of_here
                         | apply list_elem_of_further ]);
    try done;
    eexists; (split; [|find_needle]);
    repeat first [ apply list_elem_of_here | apply list_elem_of_further ].
Qed.

Lemma alert_colours_witness :
  Slack.color (slack_attachment 0 Sample.expired) ∈ ["danger"; "warning"].
Proof.
  apply (alert_colours Sample.P 0 [Sample.healthy; Sample.expired]
           Sample.expired).
  apply list_elem_of_here.
Defined.

(** ** Loading the configuration and starting the run *)

Section Loading.

Variable F : filesystem.

(** How [_load_config] ends, case by case. *)
Lemma _load_config_cases (config_path : string) :
  _load_config F config_path
  = match open_ F config_path with
    | FileNotFoundError _ =>
        ([LogError ("Configuration file not found: " +:+ config_path)],
         inr (SysExit 1))
    | OpenFailed e =>
        ([LogError ("Error loading configuration: " +:+ exn_str e)],
         inr (SysExit 1))
    | Opened file =>
        let parsed :=
          if endswith config_path ".json" then json_load F file
          else if endswith config_path ".yml" || endswith config_path ".yaml"
          then yaml_safe_load F file
          else inl (Exn ValueError "Config file must be JSON or YAML") in
        match parsed with
        | inr config => ([], inr (Loaded config))
        | inl e =>
            ([LogError ("Error loading configuration: " +:+ exn_str e)],
             inr (SysExit 1))
        end
    end.
Proof.
  unfold _load_config.
  destruct (open_ F config_path) as [file|msg|e]; [|done..].
  destruct (endswith config_path ".json");
    [|destruct (endswith config_path ".yml" || endswith config_path ".yaml")];
    simpl.
  - destruct (json_load F file) as [e|c]; simpl; [|done].
    by rewrite issubclass_Exception.
  - destruct (yaml_safe_load F file) as [e|c]; simpl; [|done].
    by rewrite issubclass_Exception.
  - done.
Qed.


End Loading.

(** X22. Loading the configuration never raises. It either returns a
    configuration, silently, and then the file was opened and the
    configuration is what the parser for its extension returned, the JSON
    parser for [.json] and the YAML parser for [.yml] and [.yaml]; or it
    logs one error line and leaves with exit status 1. *)
Theorem load_config_returns_or_exits (F : filesystem) (config_path : string) :
  ∃ events ending,
    _load_config F config_path = (events, inr ending)
    ∧ match ending with
      | Loaded config =>
          events = []
          ∧ ∃ file,
              open_ F config_path = Opened file
              ∧ ((endswith config_path ".json" = true
                  ∧ json_load F file = inr config)
                 ∨ (endswith config_path ".json" = false
                    ∧ endswith config_path ".yml"
                      || endswith config_path ".yaml" = true
                    ∧ yaml_safe_load F file = inr config))
      | SysExit code => code = 1 ∧ ∃ message, events = [LogError message]
      end.
Proof.
  rewrite _load_config_cases.
  destruct (open_ F config_path) as [file|msg|e];
    [|do 2 eexists; split; [done|]; simpl; split; [done|by eexists]..].
  destruct (endswith config_path ".json") eqn:Hjson; simpl.
  { destruct (json_load F file) as [e|c] eqn:Hload;
      do 2 eexists; (split; [done|]); simpl;
      [split; [done|by eexists]|].
    split; [done|]. exists file. split; [done|]. by left. }
  destruct (endswith config_path ".yml" || endswith config_path ".yaml")
    eqn:Hyaml;
    [|do 2 eexists; split; [done|]; simpl; split; [done|by eexists]].
  destruct (yaml_safe_load F file) as [e|c] eqn:Hload;
    do 2 eexists; (split; [done|]); simpl;
    [split; [done|by eexists]|].
  split; [done|]. exists file. split; [done|]. by right.
Qed.

(** X23. The file is opened before its name is looked at, and the name
    decides before any parser runs. A file that is not there is reported as
    not found whatever its extension. A file that is there with an
    extension other than [.json], [.yml] and [.yaml] is refused with
    "Config file must be JSON or YAML", whatever it holds; the test is on
    the exact, lower-case end of the path. *)
Theorem load_config_checks_name (F : filesystem) (config_path : string) :
  (∀ msg,
     open_ F config_path = FileNotFoundError msg →
     _load_config F config_path
     = ([LogError ("Configuration file not found: " +:+ config_path)],
        inr (SysExit 1)))
  ∧ (∀ file,
       open_ F config_path = Opened file →
       endswith config_path ".json" = false →
       endswith config_path ".yml" = false →
       endswith config_path ".yaml" = false →
       _load_config F config_path
       = ([LogError
             "Error loading configuration: Config file must be JSON or YAML"],
          inr (SysExit 1))).
Proof.
  rewrite _load_config_cases. split.
  - by intros msg ->.
  - by intros file -> -> -> ->.
Qed.

Lemma load_config_checks_name_witness :
  _load_config Demo.F "settings.json"
  = ([LogError "Configuration file not found: settings.json"],
     inr (SysExit 1))
  ∧ _load_config Demo.F "config.toml"
    = ([LogError
          "Error loading configuration: Config file must be JSON or YAML"],
       inr (SysExit 1)).
Proof.
  destruct (load_config_checks_name Demo.F "settings.json") as [Hmissing _].
  destruct (load_config_checks_name Demo.F "config.toml") as [_ Hname].
  split.
  - apply (Hmissing "[Errno 2] No such file or directory"). reflexivity.
  - apply (Hname "config.toml"); reflexivity.
Defined.



